(** * data_loader.py: the Keyspaces retry policy and the sequential insert loop

    A shallow embedding of [src/s3-vector-connector/example/data_loader.py]:

    - [KeyspacesRetryPolicy] (lines 47-85), the four retry hooks;
    - the request loop of the Cassandra driver that calls those hooks
      ([session.execute], an external library: modelled after the driver's
      documented contract, [retry_num] counts the retries already made and
      is 0 at the first call of a hook);
    - the sequential insert loop (lines 254-294) with its two counters, its
      progress report and its one-second pacing sleeps;
    - the wait for the table to become active (lines 175-208), the CSV
      loading loop (lines 214-238, with [strip], [strptime], [float] and
      [int] as parameters), the summary after the loop (lines 296-300) and
      the display of sample rows (lines 325-331).

    Wall-clock time is a virtual clock: every write attempt takes the
    latency the environment gives it and every [time.sleep(s)] takes [s]
    seconds.  Python floats are modelled as rationals; a float division is
    partial (ZeroDivisionError). *)

From Stdlib Require Import String ZArith QArith Lqa Bool Arith Lia List Sorted.
Import ListNotations.
Local Open Scope nat_scope.

(** ** Data *)

Record Date := { year : Z; month : Z; day : Z }.

(** One element of [rows] (lines 228-236). *)
Record Row := {
  title : string;
  overview : string;
  original_lang : string;
  rel_date : Date;
  popularity : Q;
  vote_count : Z;
  vote_average : Q
}.

(** [cassandra.ConsistencyLevel] *)
Inductive ConsistencyLevel :=
| ANY | ONE | TWO | THREE | QUORUM | ALL
| LOCAL_QUORUM | EACH_QUORUM | SERIAL | LOCAL_SERIAL | LOCAL_ONE.

(** The decisions of [cassandra.policies.RetryPolicy]. *)
Inductive RetryDecision := RETRY | RETHROW | IGNORE | RETRY_NEXT_HOST.

Inductive WriteType :=
| SIMPLE | BATCH | UNLOGGED_BATCH | COUNTER | BATCH_LOG | CAS.

(** What the server answers to one write attempt.  The first is a result;
    the next four are the failures the driver hands to the retry policy
    (one hook each); the last stands for the errors the driver raises at
    once, without asking the policy (invalid request, syntax error,
    unauthorized, ...). *)
Inductive ServerResponse :=
| Applied
| ReadTimeoutError (required_responses received_responses : nat)
                   (data_retrieved : bool)
| WriteTimeoutError (write_type : WriteType)
                    (required_responses received_responses : nat)
| UnavailableError (required_replicas alive_replicas : nat)
| RequestError (error : string)
| InvalidRequestError (message : string).

Definition is_transient (r : ServerResponse) : bool :=
  match r with
  | ReadTimeoutError _ _ _ | WriteTimeoutError _ _ _
  | UnavailableError _ _ | RequestError _ => true
  | Applied | InvalidRequestError _ => false
  end.

Definition is_permanent (r : ServerResponse) : bool :=
  match r with
  | InvalidRequestError _ => true
  | _ => false
  end.

(** ** KeyspacesRetryPolicy (lines 47-85) *)

Module KeyspacesRetryPolicy.

Record t := { RETRY_MAX_ATTEMPTS : nat }.

(** [__init__(self, RETRY_MAX_ATTEMPTS=20)] *)
Definition init (max : option nat) : t :=
  {| RETRY_MAX_ATTEMPTS := match max with Some m => m | None => 20 end |}.

Definition on_read_timeout (self : t) (query : Row)
    (consistency : ConsistencyLevel)
    (required_responses received_responses : nat) (data_retrieved : bool)
    (retry_num : nat) : RetryDecision * option ConsistencyLevel :=
  if retry_num <=? RETRY_MAX_ATTEMPTS self
  then (RETRY, Some consistency)
  else (RETHROW, None).

Definition on_write_timeout (self : t) (query : Row)
    (consistency : ConsistencyLevel) (write_type : WriteType)
    (required_responses received_responses : nat)
    (retry_num : nat) : RetryDecision * option ConsistencyLevel :=
  if retry_num <=? RETRY_MAX_ATTEMPTS self
  then (RETRY, Some consistency)
  else (RETHROW, None).

Definition on_unavailable (self : t) (query : Row)
    (consistency : ConsistencyLevel)
    (required_replicas alive_replicas : nat)
    (retry_num : nat) : RetryDecision * option ConsistencyLevel :=
  if retry_num <=? RETRY_MAX_ATTEMPTS self
  then (RETRY, Some consistency)
  else (RETHROW, None).

Definition on_request_error (self : t) (query : Row)
    (consistency : ConsistencyLevel) (error : string)
    (retry_num : nat) : RetryDecision * option ConsistencyLevel :=
  if retry_num <=? RETRY_MAX_ATTEMPTS self
  then (RETRY, Some consistency)
  else (RETHROW, None).

End KeyspacesRetryPolicy.

(** ** The driver: execution profile, environment and request loop *)

(** The hooks of the base class [RetryPolicy], as the driver sees them. *)
Record RetryPolicy := {
  rp_on_read_timeout :
    Row -> ConsistencyLevel -> nat -> nat -> bool -> nat ->
    RetryDecision * option ConsistencyLevel;
  rp_on_write_timeout :
    Row -> ConsistencyLevel -> WriteType -> nat -> nat -> nat ->
    RetryDecision * option ConsistencyLevel;
  rp_on_unavailable :
    Row -> ConsistencyLevel -> nat -> nat -> nat ->
    RetryDecision * option ConsistencyLevel;
  rp_on_request_error :
    Row -> ConsistencyLevel -> string -> nat ->
    RetryDecision * option ConsistencyLevel
}.

Definition as_policy (self : KeyspacesRetryPolicy.t) : RetryPolicy :=
  {| rp_on_read_timeout := KeyspacesRetryPolicy.on_read_timeout self;
     rp_on_write_timeout := KeyspacesRetryPolicy.on_write_timeout self;
     rp_on_unavailable := KeyspacesRetryPolicy.on_unavailable self;
     rp_on_request_error := KeyspacesRetryPolicy.on_request_error self |}.

Record ExecutionProfile := {
  consistency_level : ConsistencyLevel;
  retry_policy : RetryPolicy
}.

Definition keyspaces_profile (self : KeyspacesRetryPolicy.t)
  : ExecutionProfile :=
  {| consistency_level := LOCAL_QUORUM; retry_policy := as_policy self |}.

(** Lines 122-125. *)
Definition profile : ExecutionProfile :=
  keyspaces_profile (KeyspacesRetryPolicy.init (Some 20)).

(** The environment of a run.  [respond i r] is the server's answer to the
    attempt with retry number [r] on the record at position [i] (positions
    as [enumerate(rows, 1)] gives them), [latency i r] the seconds that
    attempt takes.  [cancel_requested_at] is the loop iteration at whose
    start a pending request to cancel the run would be visible. *)
Record World := {
  respond : nat -> nat -> ServerResponse;
  latency : nat -> nat -> Q;
  cancel_requested_at : option nat
}.

Inductive PyException :=
| DriverError (response : ServerResponse)
| ZeroDivisionError.

(** What the run does, in order. *)
Inductive Event :=
| EvAttempt (i : nat) (row : Row) (retry_num : nat)
            (consistency : ConsistencyLevel) (seconds : Q)
| EvProgress (i total : nat) (percent rate eta_minutes : Q)
| EvError (i : nat) (record_title : string) (e : PyException)
| EvSleep (seconds : Q).

Inductive ExecResult :=
| ResultSet
| Raised (response : ServerResponse)
| Diverged.

(** The decision of the policy in force for a failed attempt; [None] for a
    response the driver does not hand to the policy.  The consistency
    level the hooks are given is taken to be the one the request was sent
    at (the server's error frame repeats it). *)
Definition consult (policy : RetryPolicy) (query : Row)
    (consistency : ConsistencyLevel) (response : ServerResponse)
    (retry_num : nat) : option (RetryDecision * option ConsistencyLevel) :=
  match response with
  | Applied => None
  | ReadTimeoutError rq rc dr =>
      Some (rp_on_read_timeout policy query consistency rq rc dr retry_num)
  | WriteTimeoutError wt rq rc =>
      Some (rp_on_write_timeout policy query consistency wt rq rc retry_num)
  | UnavailableError rq al =>
      Some (rp_on_unavailable policy query consistency rq al retry_num)
  | RequestError err =>
      Some (rp_on_request_error policy query consistency err retry_num)
  | InvalidRequestError _ => None
  end.

(** The driver's request loop: send, and on a failure the policy covers do
    what the hook decides.  A retry is sent at once, with the retry counter
    one higher.  A policy may retry for ever, hence the fuel.  The answers
    of a call are taken to arrive within the driver's client-side request
    timeout, which is not modelled. *)
Fixpoint request_loop (fuel : nat) (policy : RetryPolicy) (w : World)
    (i : nat) (query : Row) (consistency : ConsistencyLevel)
    (retry_num : nat) : ExecResult * list Event :=
  match fuel with
  | 0 => (Diverged, [])
  | S fuel' =>
      let ev := EvAttempt i query retry_num consistency
                          (latency w i retry_num) in
      let response := respond w i retry_num in
      match response with
      | Applied => (ResultSet, [ev])
      | _ =>
          match consult policy query consistency response retry_num with
          | None => (Raised response, [ev])
          | Some (RETHROW, _) => (Raised response, [ev])
          | Some (IGNORE, _) => (ResultSet, [ev])
          | Some (_, cl) =>
              let consistency' :=
                match cl with Some c => c | None => consistency end in
              let '(res, evs) :=
                request_loop fuel' policy w i query consistency'
                             (S retry_num) in
              (res, ev :: evs)
          end
      end
  end.

(** [session.execute(prepared, (...))] under the session's default
    execution profile. *)
Definition session_execute (fuel : nat) (prof : ExecutionProfile)
    (w : World) (i : nat) (row : Row) : ExecResult * list Event :=
  request_loop fuel (retry_policy prof) w i row (consistency_level prof) 0.

(** ** The virtual clock *)

Definition seconds_of (ev : Event) : Q :=
  match ev with
  | EvAttempt _ _ _ _ s => s
  | EvSleep s => s
  | _ => 0%Q
  end.

(** The clock after the events [evs], started at [t]. *)
Fixpoint advance (t : Q) (evs : list Event) : Q :=
  match evs with
  | [] => t
  | ev :: rest => advance (t + seconds_of ev)%Q rest
  end.

(** ** The insert loop (lines 254-294) *)

Record LoopState := {
  successful : nat;
  failed : nat;
  events : list Event
}.

Definition emit (evs : list Event) (st : LoopState) : LoopState :=
  {| successful := successful st; failed := failed st;
     events := events st ++ evs |}.

(** [time.time()] *)
Definition time_time (t0 : Q) (st : LoopState) : Q := advance t0 (events st).

Definition Qlt_bool (a b : Q) : bool := negb (Qle_bool b a).

(** Python's [/] on numbers. *)
Definition truediv (a b : Q) : option Q :=
  if Qeq_bool b 0 then None else Some (a / b)%Q.

Definition of_nat (n : nat) : Q := inject_Z (Z.of_nat n).

(** Lines 276-282: the progress line, or [None] when a division raises. *)
Definition progress_report (i total : nat) (now start_time : Q)
  : option Event :=
  let elapsed_time := (now - start_time)%Q in
  match (if Qlt_bool 0 elapsed_time
         then truediv (of_nat i) elapsed_time else Some 0%Q) with
  | None => None
  | Some rate =>
      match (if Qlt_bool 0 rate
             then truediv (inject_Z (Z.of_nat total - Z.of_nat i)) rate
             else Some 0%Q) with
      | None => None
      | Some eta_seconds =>
          match truediv eta_seconds 60, truediv (of_nat i) (of_nat total) with
          | Some eta_minutes, Some frac =>
              Some (EvProgress i total (frac * 100)%Q rate eta_minutes)
          | _, _ => None
          end
      end
  end.

(** [if i < len(rows): time.sleep(1)] *)
Definition pace (i n : nat) (st : LoopState) : LoopState :=
  if i <? n then emit [EvSleep 1] st else st.

(** The [except Exception as e] block (lines 288-294). *)
Definition except_handler (i n : nat) (row : Row) (e : PyException)
    (st : LoopState) : LoopState :=
  pace i n
    (emit [EvError i (title row) e]
       {| successful := successful st; failed := S (failed st);
          events := events st |}).

(** One pass through the body of the [for] loop. *)
Definition iteration (fuel : nat) (prof : ExecutionProfile) (w : World)
    (n : nat) (start_time : Q) (i : nat) (row : Row) (st : LoopState)
  : option LoopState :=
  let '(res, evs) := session_execute fuel prof w i row in
  let st1 := emit evs st in
  match res with
  | Diverged => None
  | Raised response => Some (except_handler i n row (DriverError response) st1)
  | ResultSet =>
      let st2 := {| successful := S (successful st1); failed := failed st1;
                    events := events st1 |} in
      if i mod 10 =? 0 then
        match progress_report i n (time_time start_time st2) start_time with
        | Some ev => Some (pace i n (emit [ev] st2))
        | None => Some (except_handler i n row ZeroDivisionError st2)
        end
      else Some (pace i n st2)
  end.

(** [enumerate(rows, 1)] *)
Definition enumerate (rows : list Row) (start : nat) : list (nat * Row) :=
  combine (seq start (length rows)) rows.

Fixpoint for_each (fuel : nat) (prof : ExecutionProfile) (w : World)
    (n : nat) (start_time : Q) (items : list (nat * Row)) (st : LoopState)
  : option LoopState :=
  match items with
  | [] => Some st
  | (i, row) :: rest =>
      match iteration fuel prof w n start_time i row st with
      | Some st' => for_each fuel prof w n start_time rest st'
      | None => None
      end
  end.

(** Lines 254-294: the counters start at 0, [start_time] is the clock at
    the start, and the body runs once per element of [enumerate(rows, 1)]. *)
Definition insert_loop (fuel : nat) (prof : ExecutionProfile) (w : World)
    (rows : list Row) (t0 : Q) : option LoopState :=
  for_each fuel prof w (length rows) t0 (enumerate rows 1)
    {| successful := 0; failed := 0; events := [] |}.

(** ** What a run did: projections of the events *)

Definition is_attempt (ev : Event) : bool :=
  match ev with EvAttempt _ _ _ _ _ => true | _ => false end.

(** Record position, record and retry number of every write attempt. *)
Definition attempt_key (ev : Event) : list (nat * Row * nat) :=
  match ev with
  | EvAttempt i row r _ _ => [(i, row, r)]
  | _ => []
  end.

Definition attempt_keys (evs : list Event) : list (nat * Row * nat) :=
  flat_map attempt_key evs.

(** The attempt with retry number [k] on the record at position [i]. *)
Definition attempt (w : World) (i : nat) (row : Row)
    (consistency : ConsistencyLevel) (k : nat) : Event :=
  EvAttempt i row k consistency (latency w i k).

Definition good_fuel (self : KeyspacesRetryPolicy.t) (fuel : nat) : Prop :=
  KeyspacesRetryPolicy.RETRY_MAX_ATTEMPTS self + 2 <= fuel.

(** Line 277. *)
Definition observed_rate (i : nat) (elapsed_time : Q) : Q :=
  if Qlt_bool 0 elapsed_time then (of_nat i / elapsed_time)%Q else 0%Q.

(** Line 278. *)
Definition eta_seconds (i total : nat) (rate : Q) : Q :=
  if Qlt_bool 0 rate
  then (inject_Z (Z.of_nat total - Z.of_nat i) / rate)%Q else 0%Q.

Definition succeeded (res : ExecResult) : bool :=
  match res with ResultSet => true | _ => false end.

Definition raised (res : ExecResult) : bool :=
  match res with Raised _ => true | _ => false end.

(** What follows the attempts in one iteration: the progress line or the
    error line, then the pacing sleep.  [before] is everything that
    happened up to and including the attempts. *)
Definition after_attempts (res : ExecResult) (n : nat) (t0 : Q) (i : nat)
    (row : Row) (before : list Event) : list Event :=
  match res with
  | ResultSet =>
      if i mod 10 =? 0
      then [EvProgress i n (of_nat i / of_nat n * 100)%Q
              (observed_rate i (advance t0 before - t0))
              (eta_seconds i n (observed_rate i (advance t0 before - t0))
               / 60)%Q]
      else []
  | Raised response => [EvError i (title row) (DriverError response)]
  | Diverged => []
  end ++ (if i <? n then [EvSleep 1] else []).

(** How the call for the record at position [i] ends, and its attempts. *)
Definition result_of (self : KeyspacesRetryPolicy.t) (fuel : nat)
    (w : World) (i : nat) (row : Row) : ExecResult :=
  fst (session_execute fuel (keyspaces_profile self) w i row).

Definition attempts_of (self : KeyspacesRetryPolicy.t) (fuel : nat)
    (w : World) (i : nat) (row : Row) : list Event :=
  snd (session_execute fuel (keyspaces_profile self) w i row).

(** Everything one iteration appends to the events. *)
Definition block (self : KeyspacesRetryPolicy.t) (fuel : nat) (w : World)
    (n : nat) (t0 : Q) (i : nat) (row : Row) (before : list Event)
  : list Event :=
  attempts_of self fuel w i row ++
  after_attempts (result_of self fuel w i row) n t0 i row
    (before ++ attempts_of self fuel w i row).

(** The events after the loop has gone through [items]. *)
Fixpoint events_after (self : KeyspacesRetryPolicy.t) (fuel : nat)
    (w : World) (n : nat) (t0 : Q) (items : list (nat * Row))
    (before : list Event) : list Event :=
  match items with
  | [] => before
  | (i, row) :: rest =>
      events_after self fuel w n t0 rest
        (before ++ block self fuel w n t0 i row before)
  end.

Definition count_if (self : KeyspacesRetryPolicy.t) (fuel : nat)
    (w : World) (f : ExecResult -> bool) (items : list (nat * Row)) : nat :=
  length (filter (fun ir => f (result_of self fuel w (fst ir) (snd ir)))
                 items).

(** The records on which a first attempt was made, in order. *)
Definition first_attempt (ev : Event) : list (nat * Row) :=
  match ev with
  | EvAttempt i row 0 _ _ => [(i, row)]
  | _ => []
  end.

Definition first_attempts (evs : list Event) : list (nat * Row) :=
  flat_map first_attempt evs.

(** The number of records the loop has taken from [rows]. *)
Definition attempted (st : LoopState) : nat :=
  length (first_attempts (events st)).

(** The seconds of every [time.sleep] of the run, in order. *)
Definition sleep_seconds (ev : Event) : list Q :=
  match ev with EvSleep s => [s] | _ => [] end.

Definition sleeps (evs : list Event) : list Q := flat_map sleep_seconds evs.

(** Where a record starts and where the loop sleeps. *)
Inductive Mark :=
| RecordStart (i : nat)
| Pause (seconds : Q).

Definition mark (ev : Event) : list Mark :=
  match ev with
  | EvAttempt i _ 0 _ _ => [RecordStart i]
  | EvSleep s => [Pause s]
  | _ => []
  end.

Definition pacing (evs : list Event) : list Mark := flat_map mark evs.

(** The positions of the lines the run prints about records (progress
    lines and error lines), in the order it prints them. *)
Definition reported_position (ev : Event) : list nat :=
  match ev with
  | EvProgress i _ _ _ _ => [i]
  | EvError i _ _ => [i]
  | _ => []
  end.

Definition reported (evs : list Event) : list nat :=
  flat_map reported_position evs.

Definition is_zero_division (ev : Event) : bool :=
  match ev with
  | EvError _ _ ZeroDivisionError => true
  | _ => false
  end.

Definition progress_position (ev : Event) : list nat :=
  match ev with
  | EvProgress i _ _ _ _ => [i]
  | _ => []
  end.

(** The positions the progress lines of a run report, in order. *)
Definition progress_positions (evs : list Event) : list nat :=
  flat_map progress_position evs.

(** Every progress line among [evs] carries the values lines 276-279
    compute from the clock at the moment it is printed; [t] is the clock
    before [evs]. *)
Fixpoint progress_lines_sound (n : nat) (start_time t : Q)
    (evs : list Event) : Prop :=
  match evs with
  | [] => True
  | ev :: rest =>
      match ev with
      | EvProgress i total percent rate eta_minutes =>
          total = n /\
          percent = (of_nat i / of_nat total * 100)%Q /\
          rate = observed_rate i (t - start_time) /\
          eta_minutes = (eta_seconds i total rate / 60)%Q
      | _ => True
      end /\
      progress_lines_sound n start_time (t + seconds_of ev)%Q rest
  end.

(** Record position and start time of every write attempt among [evs];
    [t] is the clock before [evs]. *)
Fixpoint attempt_starts (t : Q) (evs : list Event) : list (nat * Q) :=
  match evs with
  | [] => []
  | ev :: rest =>
      match ev with
      | EvAttempt i _ _ _ _ => [(i, t)]
      | _ => []
      end ++ attempt_starts (t + seconds_of ev)%Q rest
  end.

(** Every two successive attempts start at least [gap] seconds apart. *)
Fixpoint all_spaced (gap : Q) (l : list (nat * Q)) : Prop :=
  match l with
  | a :: rest =>
      match rest with
      | b :: _ => (snd a + gap <= snd b)%Q
      | [] => True
      end /\ all_spaced gap rest
  | [] => True
  end.

(** Every two successive attempts that are on different records start at
    least [gap] seconds apart. *)
Fixpoint records_spaced (gap : Q) (l : list (nat * Q)) : Prop :=
  match l with
  | a :: rest =>
      match rest with
      | b :: _ => fst a <> fst b -> (snd a + gap <= snd b)%Q
      | [] => True
      end /\ records_spaced gap rest
  | [] => True
  end.

Definition nonnegative_latency (w : World) : Prop :=
  forall i r, (0 <= latency w i r)%Q.

(** ** Waiting for the table to become active (lines 175-208) *)

Definition max_wait_time : nat := 120.
Definition wait_interval : nat := 1.

(** What one pass through the [try] block finds: [result.one()] is a row
    with a status, or is [None], or the query raised. *)
Inductive PollResult :=
| PollRow (status : string)
| PollNone
| PollRaised (e : string).

Inductive WaitEvent :=
| WQuery
| WActive
| WStatus (status : string) (elapsed_time : nat)
| WNotFound (elapsed_time : nat)
| WError (e : string) (elapsed_time : nat)
| WSleep (seconds : nat)
| WWarning (max_wait : nat)
| WReady.

(** [row and row.status == 'ACTIVE'] *)
Definition is_active (r : PollResult) : bool :=
  match r with
  | PollRow status => String.eqb status "ACTIVE"
  | _ => false
  end.

(** The line a pass prints when the table is not active yet. *)
Definition waiting_line (r : PollResult) (elapsed_time : nat) : WaitEvent :=
  match r with
  | PollRow status => WStatus status elapsed_time
  | PollNone => WNotFound elapsed_time
  | PollRaised e => WError e elapsed_time
  end.

(** The [while elapsed_time < max_wait_time] loop; [poll k] is what pass
    number [k] finds.  Returns the final [elapsed_time] and what was done. *)
Fixpoint wait_loop (fuel : nat) (max_wait interval : nat)
    (poll : nat -> PollResult) (k elapsed_time : nat)
  : option (nat * list WaitEvent) :=
  match fuel with
  | 0 => None
  | S fuel' =>
      if elapsed_time <? max_wait then
        if is_active (poll k) then Some (elapsed_time, [WQuery; WActive])
        else
          match wait_loop fuel' max_wait interval poll (S k)
                          (elapsed_time + interval) with
          | Some (final, rest) =>
              Some (final,
                    WQuery :: waiting_line (poll k) elapsed_time ::
                    WSleep interval :: rest)
          | None => None
          end
      else Some (elapsed_time, [])
  end.

(** Lines 177-208, with the message after the loop. *)
Definition wait_for_table (poll : nat -> PollResult)
  : option (list WaitEvent) :=
  match wait_loop (S max_wait_time) max_wait_time wait_interval poll 0 0 with
  | Some (elapsed_time, evs) =>
      Some (evs ++ [if max_wait_time <=? elapsed_time
                    then WWarning max_wait_time else WReady])
  | None => None
  end.

Definition wait_queries (evs : list WaitEvent) : nat :=
  length (filter (fun ev => match ev with WQuery => true | _ => false end)
                 evs).

Definition wait_slept (evs : list WaitEvent) : nat :=
  fold_right (fun ev acc => match ev with WSleep s => s + acc | _ => acc end)
             0 evs.

(** ** Reading the CSV file (lines 214-238) *)

(** A row of [csv.DictReader] for a file that has the seven columns. *)
Record CsvRecord := {
  csv_title : string;
  csv_overview : string;
  csv_original_lang : string;
  csv_rel_date : string;
  csv_popularity : string;
  csv_vote_count : string;
  csv_vote_average : string
}.

(** The library functions the loader calls: [str.strip],
    [datetime.strptime(_, "%Y-%m-%d").date()], [float] and [int]; [None]
    is a raised ValueError. *)
Record Builtins := {
  py_strip : string -> string;
  py_strptime : string -> option Date;
  py_float : string -> option Q;
  py_int : string -> option Z
}.

(** Line 223. *)
Definition invalid_date (py : Builtins) (r : CsvRecord) : bool :=
  String.eqb (csv_rel_date r) "NaN" ||
  String.eqb (py_strip py (csv_rel_date r)) "".

Inductive CsvField :=
| FRelDate | FPopularity | FVoteCount | FVoteAverage.

(** Lines 228-236: the dictionary display, evaluated field by field; the
    first conversion that raises decides. *)
Definition convert (py : Builtins) (r : CsvRecord) : CsvField + Row :=
  match py_strptime py (csv_rel_date r) with
  | None => inl FRelDate
  | Some d =>
      match py_float py (csv_popularity r) with
      | None => inl FPopularity
      | Some p =>
          match py_int py (csv_vote_count r) with
          | None => inl FVoteCount
          | Some c =>
              match py_float py (csv_vote_average r) with
              | None => inl FVoteAverage
              | Some a =>
                  inr {| title := csv_title r;
                         overview := csv_overview r;
                         original_lang := csv_original_lang r;
                         rel_date := d;
                         popularity := p;
                         vote_count := c;
                         vote_average := a |}
              end
          end
      end
  end.

(** The [for r in reader] loop: [rows] so far and the titles of the rows
    skipped so far; a ValueError ends the script, with the field and the
    row it came from. *)
Fixpoint read_csv (py : Builtins) (reader : list CsvRecord)
    (rows : list Row) (skipped : list string)
  : (CsvField * CsvRecord) + (list Row * list string) :=
  match reader with
  | [] => inr (rows, skipped)
  | r :: rest =>
      if invalid_date py r
      then read_csv py rest rows (skipped ++ [csv_title r])
      else match convert py r with
           | inl field => inl (field, r)
           | inr row => read_csv py rest (rows ++ [row]) skipped
           end
  end.

Definition load_rows (py : Builtins) (reader : list CsvRecord)
  : (CsvField * CsvRecord) + (list Row * list string) :=
  read_csv py reader [] [].

Definition valid_date (py : Builtins) (r : CsvRecord) : bool :=
  negb (invalid_date py r).

(** ** The summary after the loop (lines 296-300) *)

Inductive SummaryLine :=
| InsertCompleted (total_time : Q)
| SuccessfulCount (n : nat)
| FailedCount (n : nat)
| AverageRate (rate : Q).

(** The four prints; the last one divides by [total_time]. *)
Definition insert_summary (st : LoopState) (start_time now : Q)
  : list SummaryLine * option PyException :=
  let total_time := (now - start_time)%Q in
  let lines := [InsertCompleted total_time;
                SuccessfulCount (successful st);
                FailedCount (failed st)] in
  match truediv (of_nat (successful st)) total_time with
  | Some rate => (lines ++ [AverageRate rate], None)
  | None => (lines, Some ZeroDivisionError)
  end.

(** ** Showing sample rows (lines 325-331) *)

(** The [for row in rs] loop with its [break]: the counter and the
    numbered rows printed. *)
Fixpoint show_samples {A : Type} (rs : list A) (count : nat)
    (printed : list (nat * A)) : nat * list (nat * A) :=
  match rs with
  | [] => (count, printed)
  | row :: rest =>
      let printed' := printed ++ [(count + 1, row)] in
      let count' := count + 1 in
      if 5 <=? count' then (count', printed')
      else show_samples rest count' printed'
  end.

(** ** More about a run *)

Definition error_line (ev : Event) : list (nat * string) :=
  match ev with
  | EvError i t _ => [(i, t)]
  | _ => []
  end.

(** Position and title on every error line, in order. *)
Definition error_lines (evs : list Event) : list (nat * string) :=
  flat_map error_line evs.

Definition Qsum (l : list Q) : Q := fold_right Qplus 0%Q l.

(** ** Sample inputs *)

Definition movie (t : string) : Row :=
  {| title := t;
     overview := "A film."%string;
     original_lang := "en"%string;
     rel_date := {| year := 2020; month := 1; day := 15 |};
     popularity := (7 # 2)%Q;
     vote_count := 100%Z;
     vote_average := (13 # 2)%Q |}.

(** Every attempt takes 50 ms. *)
Definition world (answers : nat -> nat -> ServerResponse)
    (cancel : option nat) : World :=
  {| respond := answers;
     latency := fun _ _ => (1 # 20)%Q;
     cancel_requested_at := cancel |}.

Definition all_applied : nat -> nat -> ServerResponse :=
  fun _ _ => Applied.

Definition always_write_timeout : nat -> nat -> ServerResponse :=
  fun _ _ => WriteTimeoutError SIMPLE 2 1.

(** The first attempt on record 1 times out, its retry is applied. *)
Definition one_retry : nat -> nat -> ServerResponse :=
  fun i r =>
    if (i =? 1) && (r =? 0) then WriteTimeoutError SIMPLE 2 1 else Applied.

(** The record at position [k] is refused as invalid. *)
Definition invalid_at (k : nat) : nat -> nat -> ServerResponse :=
  fun i _ =>
    if i =? k then InvalidRequestError "bad value"%string else Applied.

(** The first attempt on every record times out; its retry is refused as
    invalid. *)
Definition timeout_then_invalid : nat -> nat -> ServerResponse :=
  fun _ r =>
    if r =? 0 then WriteTimeoutError SIMPLE 2 1
    else InvalidRequestError "bad value"%string.

Definition movies (n : nat) : list Row := repeat (movie "Heat"%string) n.

Definition default_policy : KeyspacesRetryPolicy.t :=
  KeyspacesRetryPolicy.init None.

(** The same environment with another state of the cancellation request. *)
Definition with_cancel (w : World) (cancel : option nat) : World :=
  {| respond := respond w;
     latency := latency w;
     cancel_requested_at := cancel |}.

(** Stand-ins for the library functions that know a few literals. *)
Definition sample_builtins : Builtins :=
  {| py_strip := fun s => if String.eqb s "  " then ""%string else s;
     py_strptime := fun s =>
       if String.eqb s "2020-01-15"
       then Some {| year := 2020; month := 1; day := 15 |} else None;
     py_float := fun s =>
       if String.eqb s "3.5" then Some (7 # 2)%Q else None;
     py_int := fun s => if String.eqb s "100" then Some 100%Z else None |}.

Definition csv_row (t date popularity : string) : CsvRecord :=
  {| csv_title := t;
     csv_overview := "A film."%string;
     csv_original_lang := "en"%string;
     csv_rel_date := date;
     csv_popularity := popularity;
     csv_vote_count := "100"%string;
     csv_vote_average := "3.5"%string |}.

(** The table is CREATING for three passes, then ACTIVE. *)
Definition active_at_three : nat -> PollResult :=
  fun k => if k <? 3 then PollRow "CREATING"%string
           else PollRow "ACTIVE"%string.

Definition never_found : nat -> PollResult := fun _ => PollNone.

(** Lines 214-294 together: read the file, then insert what was read;
    a ValueError while reading ends the script before any insert. *)
Definition load_and_insert (py : Builtins) (fuel : nat)
    (prof : ExecutionProfile) (w : World) (reader : list CsvRecord) (t0 : Q)
  : (CsvField * CsvRecord) + option LoopState :=
  match load_rows py reader with
  | inl e => inl e
  | inr (rows, _) => inr (insert_loop fuel prof w rows t0)
  end.

(** Two loads agree: both return the same rows, the second with the
    skipped titles [skipped_before], or both end with the same error. *)
Definition same_load (a b : (CsvField * CsvRecord) + (list Row * list string))
    (skipped_before : list string) : Prop :=
  match a, b with
  | inr (rows1, _), inr (rows2, skipped2) =>
      rows1 = rows2 /\ skipped2 = skipped_before
  | inl e1, inl e2 => e1 = e2
  | _, _ => False
  end.

(** * Lemmas *)

(** * The retry policy and the request loop *)

Section Driver.

Variable self : KeyspacesRetryPolicy.t.
Variable w : World.
Variable i : nat.
Variable query : Row.

Let max := KeyspacesRetryPolicy.RETRY_MAX_ATTEMPTS self.

Lemma consult_keyspaces (cl : ConsistencyLevel) (resp : ServerResponse)
    (r : nat) :
  consult (as_policy self) query cl resp r =
  if is_transient resp
  then Some (if r <=? max then (RETRY, Some cl) else (RETHROW, None))
  else None.
Proof. destruct resp; reflexivity. Qed.

(** One unfolding of the loop under the Keyspaces policy. *)
Lemma request_loop_step (fuel : nat) (cl : ConsistencyLevel) (r : nat) :
  request_loop (S fuel) (as_policy self) w i query cl r =
  match respond w i r with
  | Applied => (ResultSet, [attempt w i query cl r])
  | resp =>
      if is_transient resp && (r <=? max)
      then let '(res, evs) :=
             request_loop fuel (as_policy self) w i query cl (S r) in
           (res, attempt w i query cl r :: evs)
      else (Raised resp, [attempt w i query cl r])
  end.
Proof.
  cbn [request_loop]. fold max.
  destruct (respond w i r) eqn:E; try reflexivity;
    rewrite consult_keyspaces; cbn [is_transient andb];
    destruct (r <=? max); reflexivity.
Qed.

(** With the fuel the policy's budget asks for, the loop returns. *)
Lemma request_loop_returns (fuel : nat) :
  forall (cl : ConsistencyLevel) (r : nat),
    1 <= fuel -> max + 2 <= fuel + r ->
    fst (request_loop fuel (as_policy self) w i query cl r) <> Diverged.
Proof.
  induction fuel as [|fuel IH]; intros cl r H1 H2; [lia|].
  rewrite request_loop_step.
  destruct (respond w i r) eqn:E; cbn [is_transient andb fst];
    try discriminate;
    destruct (r <=? max) eqn:L; cbn [fst]; try discriminate;
    apply Nat.leb_le in L;
    specialize (IH cl (S r) ltac:(lia) ltac:(lia));
    destruct (request_loop fuel (as_policy self) w i query cl (S r));
    exact IH.
Qed.

(** The attempts of one call carry the retry numbers [r], [r+1], ... and
    the consistency level the call started with; there is at least one. *)
Lemma request_loop_events (fuel : nat) :
  forall (cl : ConsistencyLevel) (r : nat),
    let evs := snd (request_loop fuel (as_policy self) w i query cl r) in
    evs = map (attempt w i query cl) (seq r (length evs)) /\
    (1 <= fuel -> 1 <= length evs).
Proof.
  induction fuel as [|fuel IH]; intros cl r; cbn zeta.
  - split; [reflexivity | lia].
  - rewrite request_loop_step.
    destruct (respond w i r) eqn:E; cbn [is_transient andb snd];
      try (split; [reflexivity | cbn; lia]);
      destruct (r <=? max) eqn:L; cbn [snd];
      try (split; [reflexivity | cbn; lia]);
      specialize (IH cl (S r)); cbn zeta in IH;
      destruct (request_loop fuel (as_policy self) w i query cl (S r))
        as [res evs];
      cbn [snd] in *; destruct IH as [IH _];
      (split; [cbn [length seq map]; f_equal; exact IH | cbn; lia]).
Qed.

(** A record every attempt on which fails with a failure the policy
    covers: the hooks say RETRY for the retry numbers 0 .. max, so the
    loop sends the statement max + 2 times before it raises. *)
Lemma request_loop_always_transient (fuel : nat) :
  forall (cl : ConsistencyLevel) (r : nat),
    (forall k, is_transient (respond w i k) = true) ->
    r <= S max -> S (S max) <= fuel + r ->
    request_loop fuel (as_policy self) w i query cl r =
    (Raised (respond w i (S max)),
     map (attempt w i query cl) (seq r (S (S max) - r))).
Proof.
  induction fuel as [|fuel IH]; intros cl r Ht Hr Hf; [lia|].
  rewrite request_loop_step.
  pose proof (Ht r) as Htr.
  destruct (r <=? max) eqn:L.
  - apply Nat.leb_le in L.
    rewrite (IH cl (S r) Ht ltac:(lia) ltac:(lia)).
    replace (S (S max) - r) with (S (S (S max) - S r)) by lia.
    destruct (respond w i r); cbn in Htr; try discriminate; reflexivity.
  - apply Nat.leb_gt in L.
    assert (r = S max) by lia; subst r.
    replace (S (S max) - S max) with 1 by lia.
    destruct (respond w i (S max)); cbn in Htr; try discriminate;
      reflexivity.
Qed.

(** A failure the policy is not asked about ends the call at once. *)
Lemma request_loop_permanent (fuel : nat) (cl : ConsistencyLevel)
    (r : nat) :
  is_permanent (respond w i r) = true ->
  request_loop (S fuel) (as_policy self) w i query cl r =
  (Raised (respond w i r), [attempt w i query cl r]).
Proof.
  intros Hp. rewrite request_loop_step.
  destruct (respond w i r); cbn in Hp; try discriminate; reflexivity.
Qed.

End Driver.

Lemma Qlt_bool_iff (a b : Q) : Qlt_bool a b = true <-> (a < b)%Q.
Proof.
  unfold Qlt_bool. rewrite negb_true_iff.
  split; intros H.
  - apply Qnot_le_lt. intros L. apply Qle_bool_iff in L. congruence.
  - destruct (Qle_bool b a) eqn:E; [|reflexivity].
    apply Qle_bool_iff in E. exfalso. apply (Qlt_not_le _ _ H E).
Qed.

Lemma truediv_nonzero (a b : Q) :
  ~ (b == 0)%Q -> truediv a b = Some (a / b)%Q.
Proof.
  intros H. unfold truediv.
  destruct (Qeq_bool b 0) eqn:E; [|reflexivity].
  apply Qeq_bool_iff in E. contradiction.
Qed.

Lemma truediv_positive (a b : Q) :
  Qlt_bool 0 b = true -> truediv a b = Some (a / b)%Q.
Proof.
  intros H. apply truediv_nonzero. apply Qlt_bool_iff in H.
  intros E. rewrite E in H. exact (Qlt_irrefl _ H).
Qed.

Lemma of_nat_nonzero (n : nat) : 0 < n -> ~ (of_nat n == 0)%Q.
Proof.
  intros H E. unfold of_nat, Qeq in E. cbn in E. lia.
Qed.

(** Inside the loop ([len(rows) > 0]) no division of the progress line
    raises, and the line carries these values. *)
Lemma progress_report_value (i total : nat) (now start_time : Q) :
  0 < total ->
  progress_report i total now start_time =
  Some (EvProgress i total (of_nat i / of_nat total * 100)%Q
          (observed_rate i (now - start_time))
          (eta_seconds i total (observed_rate i (now - start_time)) / 60)%Q).
Proof.
  intros Ht. unfold progress_report, observed_rate, eta_seconds.
  destruct (Qlt_bool 0 (now - start_time)) eqn:E1.
  - rewrite (truediv_positive _ _ E1).
    destruct (Qlt_bool 0 (of_nat i / (now - start_time))) eqn:E2.
    + rewrite (truediv_positive _ _ E2).
      rewrite (truediv_nonzero _ 60) by (intros E; discriminate E).
      rewrite (truediv_nonzero _ _ (of_nat_nonzero _ Ht)). reflexivity.
    + rewrite (truediv_nonzero _ 60) by (intros E; discriminate E).
      rewrite (truediv_nonzero _ _ (of_nat_nonzero _ Ht)). reflexivity.
  - change (Qlt_bool 0 0) with false. cbn iota.
    rewrite (truediv_nonzero _ 60) by (intros E; discriminate E).
    rewrite (truediv_nonzero _ _ (of_nat_nonzero _ Ht)). reflexivity.
Qed.

Section Iteration.

Variable self : KeyspacesRetryPolicy.t.
Variable fuel : nat.
Hypothesis enough : good_fuel self fuel.
Variable w : World.
Variable n : nat.
Variable t0 : Q.

Let prof := keyspaces_profile self.

Lemma session_execute_returns (i : nat) (row : Row) :
  fst (session_execute fuel prof w i row) <> Diverged.
Proof.
  unfold session_execute, prof. cbn [retry_policy keyspaces_profile].
  unfold good_fuel in enough.
  apply request_loop_returns; lia.
Qed.

Lemma session_execute_events (i : nat) (row : Row) :
  let evs := snd (session_execute fuel prof w i row) in
  evs = map (attempt w i row LOCAL_QUORUM) (seq 0 (length evs)) /\
  1 <= length evs.
Proof.
  cbn zeta. unfold session_execute, prof.
  cbn [retry_policy consistency_level keyspaces_profile].
  destruct (request_loop_events self w i row fuel LOCAL_QUORUM 0)
    as [H1 H2].
  split; [exact H1 | apply H2; unfold good_fuel in enough; lia].
Qed.

(** The iteration as one equation: it returns, exactly one counter goes
    up by one, and the events are the attempts and what follows them. *)
Lemma iteration_spec (i : nat) (row : Row) (st : LoopState) :
  0 < n ->
  let res := fst (session_execute fuel prof w i row) in
  let evs := snd (session_execute fuel prof w i row) in
  iteration fuel prof w n t0 i row st =
  Some {| successful := successful st + (if succeeded res then 1 else 0);
          failed := failed st + (if raised res then 1 else 0);
          events := events st ++ evs ++
                    after_attempts res n t0 i row (events st ++ evs) |}.
Proof.
  intros Hn. cbn zeta.
  pose proof (session_execute_returns i row) as Hret.
  unfold iteration.
  destruct (session_execute fuel prof w i row) as [res evs].
  cbn [fst snd] in *.
  destruct res as [| response |]; [| | congruence].
  - unfold after_attempts. cbn [succeeded raised].
    rewrite Nat.add_1_r, Nat.add_0_r.
    destruct (i mod 10 =? 0).
    + unfold time_time. cbn [events emit].
      rewrite (progress_report_value _ _ _ _ Hn).
      unfold pace, emit. cbn [events successful failed].
      destruct (i <? n); cbn [events successful failed];
        rewrite <- ?app_assoc; reflexivity.
    + unfold pace, emit. cbn [events successful failed app].
      destruct (i <? n); cbn [events successful failed];
        rewrite <- ?app_assoc, ?app_nil_r; reflexivity.
  - unfold after_attempts. cbn [succeeded raised].
    rewrite Nat.add_1_r, Nat.add_0_r.
    unfold except_handler, pace, emit. cbn [events successful failed].
    destruct (i <? n); cbn [events successful failed];
      rewrite <- ?app_assoc; reflexivity.
Qed.

End Iteration.

(** * The loop as a whole *)

Lemma enumerate_length (rows : list Row) (a : nat) :
  length (enumerate rows a) = length rows.
Proof.
  unfold enumerate. rewrite length_combine, length_seq. lia.
Qed.

Lemma enumerate_fst (rows : list Row) (a : nat) :
  map fst (enumerate rows a) = seq a (length rows).
Proof.
  unfold enumerate. revert a.
  induction rows as [|r rows IH]; intros a; cbn; [reflexivity|].
  f_equal. apply IH.
Qed.

Lemma enumerate_snd (rows : list Row) (a : nat) :
  map snd (enumerate rows a) = rows.
Proof.
  unfold enumerate. revert a.
  induction rows as [|r rows IH]; intros a; cbn; [reflexivity|].
  f_equal. apply IH.
Qed.

(** The positions of [enumerate(rows, a)] are a, a+1, ... *)
Lemma enumerate_split_from (pre : list (nat * Row)) :
  forall (rows : list Row) (a i : nat) (row : Row) post,
    enumerate rows a = pre ++ (i, row) :: post ->
    i = a + length pre /\ length pre < length rows /\
    nth_error rows (length pre) = Some row.
Proof.
  induction pre as [|p pre IH]; intros rows a i row post H;
    destruct rows as [|r rows]; try discriminate H.
  - unfold enumerate in H. cbn in H. injection H as -> -> _.
    cbn. repeat split; lia.
  - unfold enumerate in H. cbn [length seq combine app] in H.
    injection H as _ H.
    destruct (IH rows (S a) i row post H) as [H1 [H2 H3]].
    cbn [length nth_error]. repeat split; [lia | lia | exact H3].
Qed.

Section Run.

Variable self : KeyspacesRetryPolicy.t.
Variable fuel : nat.
Hypothesis enough : good_fuel self fuel.
Variable w : World.
Variable n : nat.
Variable t0 : Q.

Lemma result_of_cases (i : nat) (row : Row) :
  (succeeded (result_of self fuel w i row) = true /\
   raised (result_of self fuel w i row) = false)
  \/
  (succeeded (result_of self fuel w i row) = false /\
   raised (result_of self fuel w i row) = true).
Proof.
  pose proof (session_execute_returns self fuel enough w i row) as H.
  unfold result_of.
  destruct (fst (session_execute fuel (keyspaces_profile self) w i row));
    cbn; [left | right | congruence]; split; reflexivity.
Qed.

Lemma count_if_total (items : list (nat * Row)) :
  count_if self fuel w succeeded items + count_if self fuel w raised items
  = length items.
Proof.
  unfold count_if.
  induction items as [|[i row] rest IH]; [reflexivity|].
  cbn [filter fst snd length].
  destruct (result_of_cases i row) as [[-> ->] | [-> ->]];
    cbn [length]; lia.
Qed.

(** The loop returns; its counters count the calls that returned and the
    calls that raised, and its events are the blocks in order. *)
Lemma for_each_spec (items : list (nat * Row)) :
  forall st : LoopState,
    0 < n ->
    for_each fuel (keyspaces_profile self) w n t0 items st =
    Some {| successful :=
              successful st + count_if self fuel w succeeded items;
            failed := failed st + count_if self fuel w raised items;
            events := events_after self fuel w n t0 items (events st) |}.
Proof.
  induction items as [|[i row] rest IH]; intros st Hn.
  - cbn. rewrite !Nat.add_0_r. destruct st; reflexivity.
  - cbn [for_each].
    rewrite (iteration_spec self fuel enough w n t0 i row st Hn).
    rewrite (IH _ Hn). cbn [successful failed events].
    unfold count_if. cbn [filter fst snd events_after].
    fold (result_of self fuel w i row). fold (attempts_of self fuel w i row).
    unfold block.
    destruct (result_of_cases i row) as [[-> ->] | [-> ->]];
      cbn [length]; do 2 f_equal; lia.
Qed.

(** A projection of the events that does not look at the clock is the
    concatenation of the projections of the blocks. *)
Lemma events_after_flat_map {A : Type} (proj : Event -> list A)
    (per_record : nat -> Row -> list A) (items : list (nat * Row)) :
  (forall i row before,
      In (i, row) items ->
      flat_map proj (block self fuel w n t0 i row before)
      = per_record i row) ->
  forall before,
    flat_map proj (events_after self fuel w n t0 items before) =
    flat_map proj before ++
    flat_map (fun ir => per_record (fst ir) (snd ir)) items.
Proof.
  induction items as [|[i row] rest IH]; intros Hb before.
  - cbn. rewrite app_nil_r. reflexivity.
  - cbn [events_after flat_map fst snd].
    rewrite IH by (intros; apply Hb; right; assumption).
    rewrite flat_map_app, Hb by (left; reflexivity).
    rewrite <- app_assoc. reflexivity.
Qed.

End Run.

Lemma insert_loop_spec (self : KeyspacesRetryPolicy.t) (fuel : nat)
    (w : World) (rows : list Row) (t0 : Q) :
  good_fuel self fuel ->
  insert_loop fuel (keyspaces_profile self) w rows t0 =
  Some {| successful :=
            count_if self fuel w succeeded (enumerate rows 1);
          failed := count_if self fuel w raised (enumerate rows 1);
          events :=
            events_after self fuel w (length rows) t0 (enumerate rows 1) []
       |}.
Proof.
  intros enough. unfold insert_loop.
  destruct rows as [|r rows]; [reflexivity|].
  rewrite (for_each_spec self fuel enough) by (cbn; lia).
  reflexivity.
Qed.

Lemma flat_map_ext_nil {A B : Type} (f : A -> list B) (l : list A) :
  (forall x, In x l -> f x = []) -> flat_map f l = [].
Proof.
  induction l as [|x l IH]; intros H; [reflexivity|].
  cbn. rewrite (H x (or_introl eq_refl)), IH; [reflexivity|].
  intros y Hy. apply H. right. exact Hy.
Qed.

Lemma flat_map_pair_id {A B : Type} (l : list (A * B)) :
  flat_map (fun ab => [(fst ab, snd ab)]) l = l.
Proof.
  induction l as [|[a b] l IH]; [reflexivity|].
  cbn. f_equal. exact IH.
Qed.

(** What follows the attempts of an iteration holds no attempt. *)
Lemma after_attempts_not_attempt (res : ExecResult) (n : nat) (t0 : Q)
    (i : nat) (row : Row) (before : list Event) (ev : Event) :
  In ev (after_attempts res n t0 i row before) -> is_attempt ev = false.
Proof.
  unfold after_attempts. intros H. apply in_app_or in H.
  destruct H as [H | H].
  - destruct res; [destruct (i mod 10 =? 0)| |]; cbn in H;
      try contradiction; destruct H as [<- | []]; reflexivity.
  - destruct (i <? n); cbn in H; try contradiction.
    destruct H as [<- | []]; reflexivity.
Qed.

Lemma after_attempts_proj {A : Type} (proj : Event -> list A)
    (res : ExecResult) (n : nat) (t0 : Q) (i : nat) (row : Row)
    (before : list Event) :
  (forall ev, is_attempt ev = false -> proj ev = []) ->
  flat_map proj (after_attempts res n t0 i row before) = [].
Proof.
  intros H. apply flat_map_ext_nil. intros ev Hev. apply H.
  exact (after_attempts_not_attempt _ _ _ _ _ _ _ Hev).
Qed.

Lemma first_attempts_retries (w : World) (i : nat) (row : Row)
    (cl : ConsistencyLevel) (a k : nat) :
  first_attempts (map (attempt w i row cl) (seq (S a) k)) = [].
Proof.
  revert a. induction k as [|k IH]; intros a; [reflexivity|].
  cbn. apply IH.
Qed.

Section RunFacts.

Variable self : KeyspacesRetryPolicy.t.
Variable fuel : nat.
Hypothesis enough : good_fuel self fuel.
Variable w : World.

Lemma attempts_of_shape (i : nat) (row : Row) :
  exists k,
    attempts_of self fuel w i row =
    map (attempt w i row LOCAL_QUORUM) (seq 0 (S k)).
Proof.
  destruct (session_execute_events self fuel enough w i row) as [H1 H2].
  cbn zeta in H1. unfold attempts_of.
  destruct (length (snd (session_execute fuel (keyspaces_profile self)
                           w i row))) as [|k] eqn:E; [lia|].
  exists k. exact H1.
Qed.

Lemma block_first_attempts (n : nat) (t0 : Q) (i : nat) (row : Row)
    (before : list Event) :
  flat_map first_attempt (block self fuel w n t0 i row before) =
  [(i, row)].
Proof.
  unfold block. rewrite flat_map_app.
  rewrite after_attempts_proj, app_nil_r
    by (intros [] H; try reflexivity; discriminate H).
  destruct (attempts_of_shape i row) as [k ->].
  cbn [seq map flat_map]. fold (first_attempts).
  change (flat_map first_attempt ?l) with (first_attempts l).
  rewrite first_attempts_retries. reflexivity.
Qed.

(** Every record of [rows] gets its first attempt, in the order of
    [rows], whatever happens to the records before it. *)
Lemma run_first_attempts (rows : list Row) (t0 : Q) :
  first_attempts
    (events_after self fuel w (length rows) t0 (enumerate rows 1) []) =
  enumerate rows 1.
Proof.
  unfold first_attempts.
  rewrite (events_after_flat_map self fuel w (length rows) t0
             first_attempt (fun i row => [(i, row)])).
  - cbn [flat_map app]. apply flat_map_pair_id.
  - intros i row before _. apply block_first_attempts.
Qed.

End RunFacts.

(** * The claims *)

(** C6: the four hooks of [KeyspacesRetryPolicy] give the same decision
    whatever the cause: (RETRY, consistency) while
    [retry_num <= RETRY_MAX_ATTEMPTS], (RETHROW, None) after that; and the
    request loop that acts on the decision puts nothing but write attempts
    between two attempts of a call: no sleep, no backoff. *)
Theorem C6_retry_decision_independent_of_cause :
  forall (self : KeyspacesRetryPolicy.t) (query : Row)
         (consistency : ConsistencyLevel) (retry_num : nat)
         (required_responses received_responses : nat)
         (data_retrieved : bool) (write_type : WriteType)
         (required_replicas alive_replicas : nat) (error : string),
    let decision :=
      if retry_num <=? KeyspacesRetryPolicy.RETRY_MAX_ATTEMPTS self
      then (RETRY, Some consistency) else (RETHROW, None) in
    KeyspacesRetryPolicy.on_read_timeout self query consistency
      required_responses received_responses data_retrieved retry_num
    = decision /\
    KeyspacesRetryPolicy.on_write_timeout self query consistency
      write_type required_responses received_responses retry_num
    = decision /\
    KeyspacesRetryPolicy.on_unavailable self query consistency
      required_replicas alive_replicas retry_num
    = decision /\
    KeyspacesRetryPolicy.on_request_error self query consistency
      error retry_num
    = decision /\
    (forall (fuel : nat) (w : World) (i : nat),
        Forall (fun ev => is_attempt ev = true)
          (snd (session_execute fuel (keyspaces_profile self) w i query))).
Proof.
  intros. repeat split.
  intros fuel w i. unfold session_execute.
  cbn [retry_policy consistency_level keyspaces_profile].
  destruct (request_loop_events self w i query fuel LOCAL_QUORUM 0)
    as [H _].
  rewrite H. apply Forall_forall. intros ev Hev.
  apply in_map_iff in Hev. destruct Hev as [k [<- _]]. reflexivity.
Qed.

(** C1, on the code: a record every attempt on which fails with a failure
    the policy covers is sent [RETRY_MAX_ATTEMPTS + 2] times (22 with the
    default 20, not 20): the hooks answer RETRY for the retry numbers
    0 .. RETRY_MAX_ATTEMPTS.  The call then raises and the loop counts the
    record in [failed]. *)
Theorem C1_always_transient_attempts :
  forall (self : KeyspacesRetryPolicy.t) (fuel : nat) (w : World)
         (n : nat) (t0 : Q) (i : nat) (row : Row) (st : LoopState),
    good_fuel self fuel ->
    (forall k, is_transient (respond w i k) = true) ->
    let max := KeyspacesRetryPolicy.RETRY_MAX_ATTEMPTS self in
    session_execute fuel (keyspaces_profile self) w i row =
      (Raised (respond w i (S max)),
       map (attempt w i row LOCAL_QUORUM) (seq 0 (max + 2))) /\
    length (snd (session_execute fuel (keyspaces_profile self) w i row))
      = max + 2 /\
    exists st',
      iteration fuel (keyspaces_profile self) w n t0 i row st = Some st' /\
      failed st' = S (failed st) /\ successful st' = successful st.
Proof.
  intros self fuel w n t0 i row st enough Ht max.
  assert (E : session_execute fuel (keyspaces_profile self) w i row =
              (Raised (respond w i (S max)),
               map (attempt w i row LOCAL_QUORUM) (seq 0 (max + 2)))).
  { unfold session_execute.
    cbn [retry_policy consistency_level keyspaces_profile].
    unfold good_fuel in enough. fold max in enough.
    rewrite (request_loop_always_transient self w i row fuel LOCAL_QUORUM 0
               Ht); fold max; try lia.
    rewrite Nat.sub_0_r. replace (max + 2) with (S (S max)) by lia.
    reflexivity. }
  split; [exact E|]. split.
  - rewrite E. cbn [snd]. rewrite length_map, length_seq. reflexivity.
  - unfold iteration. rewrite E. eexists. split; [reflexivity|].
    unfold except_handler, pace, emit.
    destruct (i <? n); split; reflexivity.
Qed.

(** The attempt that is answered with a failure the policy does not cover
    is the last of its call. *)
Lemma request_loop_stops_at_permanent (self : KeyspacesRetryPolicy.t)
    (w : World) (i : nat) (query : Row) (k : nat) :
  is_permanent (respond w i k) = true ->
  forall (fuel : nat) (cl : ConsistencyLevel) (r : nat),
    r <= k ->
    length (snd (request_loop fuel (as_policy self) w i query cl r))
    <= S k - r.
Proof.
  intros Hp fuel.
  induction fuel as [|fuel IH]; intros cl r Hr; [cbn; lia|].
  rewrite request_loop_step.
  destruct (Nat.eq_dec r k) as [-> | Hne].
  - destruct (respond w i k); cbn in Hp; try discriminate.
    cbn [is_transient andb snd length]. lia.
  - specialize (IH cl (S r) ltac:(lia)).
    destruct (request_loop fuel (as_policy self) w i query cl (S r))
      as [res evs].
    cbn [snd] in IH.
    destruct (respond w i r); cbn [is_transient andb snd length];
      try lia;
      destruct (r <=? KeyspacesRetryPolicy.RETRY_MAX_ATTEMPTS self);
      cbn [snd length]; lia.
Qed.

(** C4, as the code has it: a failure the policy does not cover is never
    retried.  A record whose first attempt is answered with such a failure
    is sent exactly once; [failed] goes up by one, [successful] stays.
    The attempt that receives such a failure is the last on its record:
    when it has retry number k the record has had at most k + 1 attempts.
    And the loop goes on: whatever the servers answer, the run returns,
    the records it makes a first attempt on are exactly [rows], in order
    and at the positions 1 .. len(rows), and every one of them is
    counted. *)
Theorem C4_permanent_failure_single_attempt_no_abort :
  forall (self : KeyspacesRetryPolicy.t) (fuel : nat) (w : World),
    good_fuel self fuel ->
    (forall (n : nat) (t0 : Q) (i : nat) (row : Row) (st : LoopState),
        is_permanent (respond w i 0) = true ->
        iteration fuel (keyspaces_profile self) w n t0 i row st =
        Some {| successful := successful st;
                failed := S (failed st);
                events :=
                  events st ++
                  [attempt w i row LOCAL_QUORUM 0;
                   EvError i (title row) (DriverError (respond w i 0))] ++
                  (if i <? n then [EvSleep 1] else []) |}) /\
    (forall (i : nat) (row : Row) (k : nat),
        is_permanent (respond w i k) = true ->
        length (snd (session_execute fuel (keyspaces_profile self) w i row))
        <= k + 1) /\
    (forall (rows : list Row) (t0 : Q),
        exists st,
          insert_loop fuel (keyspaces_profile self) w rows t0 = Some st /\
          map snd (first_attempts (events st)) = rows /\
          map fst (first_attempts (events st)) = seq 1 (length rows) /\
          successful st + failed st = length rows).
Proof.
  intros self fuel w enough. split; [|split].
  - intros n t0 i row st Hp.
    unfold iteration, session_execute.
    cbn [retry_policy consistency_level keyspaces_profile].
    unfold good_fuel in enough.
    destruct fuel as [|fuel']; [lia|].
    rewrite (request_loop_permanent self w i row fuel' LOCAL_QUORUM 0 Hp).
    unfold except_handler, pace, emit. cbn [events successful failed].
    destruct (i <? n); cbn [events successful failed];
      rewrite <- ?app_assoc; reflexivity.
  - intros i row k Hp. unfold session_execute.
    cbn [retry_policy consistency_level keyspaces_profile].
    pose proof (request_loop_stops_at_permanent self w i row k Hp fuel
                  LOCAL_QUORUM 0 ltac:(lia)) as H.
    lia.
  - intros rows t0. eexists. split.
    + apply (insert_loop_spec self fuel w rows t0 enough).
    + cbn [events successful failed].
      rewrite (run_first_attempts self fuel enough).
      rewrite (count_if_total self fuel enough), enumerate_length.
      repeat split; [apply enumerate_snd | apply enumerate_fst].
Qed.

(** C3: a run over [rows] returns, and at its end
    [successful + failed = attempted = len(rows)]; every iteration adds one
    to exactly one of the two counters. *)
Theorem C3_counters_partition_the_records :
  forall (self : KeyspacesRetryPolicy.t) (fuel : nat) (w : World),
    good_fuel self fuel ->
    (forall (rows : list Row) (t0 : Q),
        exists st,
          insert_loop fuel (keyspaces_profile self) w rows t0 = Some st /\
          successful st + failed st = attempted st /\
          attempted st = length rows) /\
    (forall (n : nat) (t0 : Q) (i : nat) (row : Row) (st : LoopState),
        0 < n ->
        exists st',
          iteration fuel (keyspaces_profile self) w n t0 i row st
          = Some st' /\
          ((successful st' = S (successful st) /\ failed st' = failed st) \/
           (successful st' = successful st /\ failed st' = S (failed st)))).
Proof.
  intros self fuel w enough. split.
  - intros rows t0. eexists. split.
    + apply (insert_loop_spec self fuel w rows t0 enough).
    + unfold attempted. cbn [events successful failed].
      rewrite (run_first_attempts self fuel enough).
      rewrite (count_if_total self fuel enough), enumerate_length.
      split; reflexivity.
  - intros n t0 i row st Hn. eexists. split.
    + apply (iteration_spec self fuel enough w n t0 i row st Hn).
    + cbn [successful failed].
      destruct (result_of_cases self fuel enough w i row) as [[H1 H2]|[H1 H2]];
        unfold result_of in H1, H2; rewrite H1, H2; [left | right];
        split; lia.
Qed.

Lemma flat_map_fst {A B C : Type} (g : A -> list C) (l : list (A * B)) :
  flat_map (fun ab => g (fst ab)) l = flat_map g (map fst l).
Proof.
  induction l as [|[a b] l IH]; [reflexivity|].
  cbn. f_equal. exact IH.
Qed.

Lemma flat_map_below {A : Type} (x : list A) (n k : nat) :
  forall a, a + k <= n ->
    flat_map (fun i => if i <? n then x else []) (seq a k) =
    flat_map (fun _ => x) (seq a k).
Proof.
  induction k as [|k IH]; intros a H; [reflexivity|].
  cbn [seq flat_map].
  destruct (Nat.ltb_spec a n); [|lia].
  f_equal. apply IH. lia.
Qed.

Lemma flat_map_const_one {A : Type} (x : A) (k : nat) :
  forall a, flat_map (fun _ => [x]) (seq a k) = repeat x k.
Proof.
  induction k as [|k IH]; intros a; [reflexivity|].
  cbn. f_equal. apply IH.
Qed.

Lemma sleeps_between_records (x : Q) (n : nat) :
  flat_map (fun i => if i <? n then [x] else []) (seq 1 n) =
  repeat x (n - 1).
Proof.
  destruct n as [|n]; [reflexivity|].
  rewrite seq_S, flat_map_app. cbn [flat_map].
  rewrite (flat_map_below [x] (S n) n 1) by lia.
  rewrite flat_map_const_one.
  cbn [Nat.add]. rewrite Nat.ltb_irrefl. cbn [app].
  rewrite app_nil_r. f_equal. lia.
Qed.

Lemma pacing_retries (w : World) (i : nat) (row : Row)
    (cl : ConsistencyLevel) (a k : nat) :
  pacing (map (attempt w i row cl) (seq (S a) k)) = [].
Proof.
  revert a. induction k as [|k IH]; intros a; [reflexivity|].
  cbn. apply IH.
Qed.

Lemma sleeps_attempts (w : World) (i : nat) (row : Row)
    (cl : ConsistencyLevel) (a k : nat) :
  sleeps (map (attempt w i row cl) (seq a k)) = [].
Proof.
  revert a. induction k as [|k IH]; intros a; [reflexivity|].
  cbn. apply IH.
Qed.

Lemma after_attempts_sleeps (res : ExecResult) (n : nat) (t0 : Q)
    (i : nat) (row : Row) (before : list Event) :
  sleeps (after_attempts res n t0 i row before) =
  if i <? n then [1%Q] else [].
Proof.
  unfold after_attempts, sleeps. rewrite flat_map_app.
  destruct res; [destruct (i mod 10 =? 0)| |];
    destruct (i <? n); reflexivity.
Qed.

Lemma after_attempts_pacing (res : ExecResult) (n : nat) (t0 : Q)
    (i : nat) (row : Row) (before : list Event) :
  pacing (after_attempts res n t0 i row before) =
  if i <? n then [Pause 1] else [].
Proof.
  unfold after_attempts, pacing. rewrite flat_map_app.
  destruct res; [destruct (i mod 10 =? 0)| |];
    destruct (i <? n); reflexivity.
Qed.

(** C9: a run over n records sleeps exactly n - 1 times, one second each:
    once after every record but the last, whether the record was written
    or not (between the first attempts of two successive records there is
    exactly one sleep, after the last record none). *)
Theorem C9_one_sleep_after_every_record_but_the_last :
  forall (self : KeyspacesRetryPolicy.t) (fuel : nat) (w : World)
         (rows : list Row) (t0 : Q),
    good_fuel self fuel ->
    exists st,
      insert_loop fuel (keyspaces_profile self) w rows t0 = Some st /\
      sleeps (events st) = repeat 1%Q (length rows - 1) /\
      pacing (events st) =
      flat_map (fun i => RecordStart i ::
                         (if i <? length rows then [Pause 1] else []))
               (seq 1 (length rows)).
Proof.
  intros self fuel w rows t0 enough. eexists. split.
  - apply (insert_loop_spec self fuel w rows t0 enough).
  - cbn [events]. split.
    + unfold sleeps.
      rewrite (events_after_flat_map self fuel w (length rows) t0
                 sleep_seconds
                 (fun i _ => if i <? length rows then [1%Q] else [])).
      * cbn [flat_map app].
        rewrite (flat_map_fst
                   (fun i => if i <? length rows then [1%Q] else [])),
          enumerate_fst.
        apply sleeps_between_records.
      * intros i row before _. unfold block. rewrite flat_map_app.
        destruct (attempts_of_shape self fuel enough w i row) as [k ->].
        change (flat_map sleep_seconds ?l) with (sleeps l).
        rewrite sleeps_attempts, after_attempts_sleeps. reflexivity.
    + unfold pacing.
      rewrite (events_after_flat_map self fuel w (length rows) t0
                 mark
                 (fun i _ => RecordStart i ::
                             (if i <? length rows then [Pause 1] else []))).
      * cbn [flat_map app].
        rewrite (flat_map_fst
                   (fun i => RecordStart i ::
                             (if i <? length rows then [Pause 1] else []))),
          enumerate_fst.
        reflexivity.
      * intros i row before _. unfold block. rewrite flat_map_app.
        destruct (attempts_of_shape self fuel enough w i row) as [k ->].
        change (flat_map mark ?l) with (pacing l).
        rewrite after_attempts_pacing.
        cbn [seq map]. unfold pacing at 1. cbn [flat_map attempt mark].
        change (flat_map mark ?l) with (pacing l).
        rewrite pacing_retries. reflexivity.
Qed.

Lemma attempt_keys_attempts (w : World) (i : nat) (row : Row)
    (cl : ConsistencyLevel) (a k : nat) :
  attempt_keys (map (attempt w i row cl) (seq a k)) =
  map (fun r => (i, row, r)) (seq a k).
Proof.
  revert a. induction k as [|k IH]; intros a; [reflexivity|].
  cbn. f_equal. apply IH.
Qed.

Lemma reported_attempts (w : World) (i : nat) (row : Row)
    (cl : ConsistencyLevel) (a k : nat) :
  reported (map (attempt w i row cl) (seq a k)) = [].
Proof.
  revert a. induction k as [|k IH]; intros a; [reflexivity|].
  cbn. apply IH.
Qed.

(** Picking positions out of [enumerate] keeps them increasing. *)
Lemma picked_positions_sorted (f : nat * Row -> bool)
    (l : list (nat * Row)) :
  forall a,
    map fst l = seq a (length l) ->
    StronglySorted lt
      (flat_map (fun ir => if f ir then [fst ir] else []) l) /\
    Forall (fun x => a <= x)
      (flat_map (fun ir => if f ir then [fst ir] else []) l).
Proof.
  induction l as [|[i row] l IH]; intros a H.
  - split; constructor.
  - cbn [map fst length seq] in H. injection H as -> H.
    destruct (IH (S a) H) as [S1 F1].
    assert (F2 : Forall (fun x => a <= x)
                   (flat_map (fun ir => if f ir then [fst ir] else []) l)).
    { eapply Forall_impl; [|exact F1]. intros x Hx. cbn in Hx. lia. }
    cbn [flat_map fst]. destruct (f (a, row)); cbn [app].
    + split.
      * constructor; [exact S1|].
        eapply Forall_impl; [|exact F1]. intros x Hx. cbn in Hx. lia.
      * constructor; [lia | exact F2].
    + split; assumption.
Qed.

(** C7: the records are attempted in the order of [rows]: the sequence of
    write attempts is, record after record in source order, the attempts
    0, 1, ... of that record (at least one, all of them together); the
    records on which a first attempt is made are exactly [rows], in order;
    and the lines the run prints about records come in increasing
    position. *)
Theorem C7_records_attempted_in_source_order :
  forall (self : KeyspacesRetryPolicy.t) (fuel : nat) (w : World)
         (rows : list Row) (t0 : Q),
    good_fuel self fuel ->
    exists (st : LoopState) (made : nat -> Row -> nat),
      insert_loop fuel (keyspaces_profile self) w rows t0 = Some st /\
      (forall i row, 1 <= made i row) /\
      attempt_keys (events st) =
        flat_map (fun ir => map (fun r => (fst ir, snd ir, r))
                                (seq 0 (made (fst ir) (snd ir))))
                 (enumerate rows 1) /\
      map snd (first_attempts (events st)) = rows /\
      StronglySorted lt (reported (events st)).
Proof.
  intros self fuel w rows t0 enough.
  eexists. exists (fun i row => length (attempts_of self fuel w i row)).
  split; [apply (insert_loop_spec self fuel w rows t0 enough)|].
  cbn [events]. repeat split.
  - intros i row.
    destruct (attempts_of_shape self fuel enough w i row) as [k ->].
    rewrite length_map, length_seq. lia.
  - unfold attempt_keys at 1.
    rewrite (events_after_flat_map self fuel w (length rows) t0
               attempt_key
               (fun i row =>
                  map (fun r => (i, row, r))
                      (seq 0 (length (attempts_of self fuel w i row))))).
    + reflexivity.
    + intros i row before _. unfold block. rewrite flat_map_app.
      rewrite after_attempts_proj, app_nil_r
        by (intros [] H; try reflexivity; discriminate H).
      destruct (attempts_of_shape self fuel enough w i row) as [k ->].
      change (flat_map attempt_key ?l) with (attempt_keys l).
      rewrite attempt_keys_attempts, length_map, length_seq. reflexivity.
  - rewrite (run_first_attempts self fuel enough). apply enumerate_snd.
  - unfold reported.
    rewrite (events_after_flat_map self fuel w (length rows) t0
               reported_position
               (fun i row =>
                  if match result_of self fuel w i row with
                     | ResultSet => i mod 10 =? 0
                     | Raised _ => true
                     | Diverged => false
                     end
                  then [i] else [])).
    + cbn [flat_map app].
      apply (picked_positions_sorted
               (fun ir => match result_of self fuel w (fst ir) (snd ir) with
                          | ResultSet => fst ir mod 10 =? 0
                          | Raised _ => true
                          | Diverged => false
                          end) (enumerate rows 1) 1).
      rewrite enumerate_fst, enumerate_length. reflexivity.
    + intros i row before _. unfold block. rewrite flat_map_app.
      destruct (attempts_of_shape self fuel enough w i row) as [k ->].
      change (flat_map reported_position
                (map (attempt w i row LOCAL_QUORUM) (seq 0 (S k))))
        with (reported (map (attempt w i row LOCAL_QUORUM) (seq 0 (S k)))).
      rewrite reported_attempts. cbn [app].
      unfold after_attempts. rewrite flat_map_app.
      destruct (result_of self fuel w i row);
        [destruct (i mod 10 =? 0)| |];
        destruct (i <? length rows); reflexivity.
Qed.

Lemma events_after_none (self : KeyspacesRetryPolicy.t) (fuel : nat)
    (w : World) (n : nat) (t0 : Q) (f : Event -> bool)
    (items : list (nat * Row)) :
  (forall i row before, forallb (fun ev => negb (f ev))
                          (block self fuel w n t0 i row before) = true) ->
  forall before,
    forallb (fun ev => negb (f ev)) before = true ->
    forallb (fun ev => negb (f ev))
      (events_after self fuel w n t0 items before) = true.
Proof.
  intros Hb. induction items as [|[i row] rest IH]; intros before H.
  - exact H.
  - cbn [events_after]. apply IH. rewrite forallb_app, H, Hb. reflexivity.
Qed.

(** C10: the progress computation divides by nothing that is zero: inside
    the loop ([len(rows) > 0]) it returns a progress line for every clock
    reading; the rate on the line is 0 when no time has passed since the
    start, and the estimated time remaining is 0 when the rate is 0.  No
    run prints a ZeroDivisionError. *)
Theorem C10_progress_never_divides_by_zero :
  forall (self : KeyspacesRetryPolicy.t) (fuel : nat) (w : World),
    good_fuel self fuel ->
    (forall (i total : nat) (now start_time : Q),
        0 < total ->
        exists percent rate eta_minutes,
          progress_report i total now start_time =
          Some (EvProgress i total percent rate eta_minutes) /\
          ((now - start_time == 0)%Q -> rate = 0%Q) /\
          ((rate == 0)%Q -> (eta_minutes == 0)%Q)) /\
    (forall (rows : list Row) (t0 : Q),
        exists st,
          insert_loop fuel (keyspaces_profile self) w rows t0 = Some st /\
          forallb (fun ev => negb (is_zero_division ev)) (events st)
          = true).
Proof.
  intros self fuel w enough. split.
  - intros i total now start_time Ht.
    do 3 eexists. split; [apply (progress_report_value _ _ _ _ Ht)|].
    split.
    + intros E. unfold observed_rate.
      destruct (Qlt_bool 0 (now - start_time)) eqn:L; [|reflexivity].
      apply Qlt_bool_iff in L. rewrite E in L.
      exfalso. exact (Qlt_irrefl _ L).
    + intros E. unfold eta_seconds.
      destruct (Qlt_bool 0 (observed_rate i (now - start_time))) eqn:L.
      * apply Qlt_bool_iff in L. rewrite E in L.
        exfalso. exact (Qlt_irrefl _ L).
      * reflexivity.
  - intros rows t0. eexists. split.
    + apply (insert_loop_spec self fuel w rows t0 enough).
    + cbn [events]. apply events_after_none; [|reflexivity].
      intros i row before. unfold block. rewrite forallb_app.
      destruct (attempts_of_shape self fuel enough w i row) as [k ->].
      apply andb_true_intro. split.
      * apply forallb_forall. intros ev Hev.
        apply in_map_iff in Hev. destruct Hev as [r [<- _]]. reflexivity.
      * unfold after_attempts. rewrite forallb_app.
        destruct (result_of self fuel w i row);
          [destruct (i mod 10 =? 0)| |];
          destruct (i <? length rows); reflexivity.
Qed.

Lemma progress_positions_attempts (w : World) (i : nat) (row : Row)
    (cl : ConsistencyLevel) (a k : nat) :
  progress_positions (map (attempt w i row cl) (seq a k)) = [].
Proof.
  revert a. induction k as [|k IH]; intros a; [reflexivity|].
  cbn. apply IH.
Qed.

Lemma advance_app (l1 l2 : list Event) :
  forall t, advance t (l1 ++ l2) = advance (advance t l1) l2.
Proof.
  induction l1 as [|ev l1 IH]; intros t; [reflexivity|].
  cbn. apply IH.
Qed.

Lemma progress_lines_sound_app (n : nat) (start_time : Q)
    (l1 l2 : list Event) :
  forall t,
    progress_lines_sound n start_time t (l1 ++ l2) <->
    progress_lines_sound n start_time t l1 /\
    progress_lines_sound n start_time (advance t l1) l2.
Proof.
  induction l1 as [|ev l1 IH]; intros t; cbn [app progress_lines_sound advance].
  - tauto.
  - rewrite IH. tauto.
Qed.

Lemma progress_lines_sound_attempts (n : nat) (start_time : Q) (w : World)
    (i : nat) (row : Row) (cl : ConsistencyLevel) (k : nat) :
  forall a t,
    progress_lines_sound n start_time t
      (map (attempt w i row cl) (seq a k)).
Proof.
  induction k as [|k IH]; intros a t; cbn; [exact I|].
  split; [exact I | apply IH].
Qed.

Lemma events_after_progress_sound (self : KeyspacesRetryPolicy.t)
    (fuel : nat) (w : World) (n : nat) (t0 : Q) :
  good_fuel self fuel ->
  forall (items : list (nat * Row)) (before : list Event),
    progress_lines_sound n t0 t0 before ->
    progress_lines_sound n t0 t0
      (events_after self fuel w n t0 items before).
Proof.
  intros enough items.
  induction items as [|[i row] rest IH]; intros before H; [exact H|].
  cbn [events_after]. apply IH.
  apply progress_lines_sound_app. split; [exact H|].
  unfold block.
  apply progress_lines_sound_app. split.
  - destruct (attempts_of_shape self fuel enough w i row) as [k ->].
    apply progress_lines_sound_attempts.
  - rewrite <- advance_app. unfold after_attempts.
    destruct (result_of self fuel w i row);
      [destruct (i mod 10 =? 0)| |];
      destruct (i <? n); cbn; tauto.
Qed.

(** C5, as the code has it: a progress line is printed exactly for the
    records whose position in [rows] is a multiple of 10 and whose write
    returned (positions count failed records too, and a failed record
    prints no progress line).  The line carries the position [i],
    [len(rows)], the percentage [i / len(rows) * 100], the rate
    [i / elapsed] measured from the start of the run (0 when no time has
    passed) and the estimated time remaining in minutes,
    [(len(rows) - i) / rate / 60] (0 when the rate is 0). *)
Theorem C5_progress_every_tenth_position :
  forall (self : KeyspacesRetryPolicy.t) (fuel : nat) (w : World)
         (rows : list Row) (t0 : Q),
    good_fuel self fuel ->
    exists st,
      insert_loop fuel (keyspaces_profile self) w rows t0 = Some st /\
      progress_positions (events st) =
        flat_map
          (fun ir =>
             if (fst ir mod 10 =? 0) &&
                succeeded (result_of self fuel w (fst ir) (snd ir))
             then [fst ir] else [])
          (enumerate rows 1) /\
      (forall pre post i total percent rate eta_minutes,
          events st =
          pre ++ EvProgress i total percent rate eta_minutes :: post ->
          total = length rows /\
          percent = (of_nat i / of_nat total * 100)%Q /\
          rate = observed_rate i (advance t0 pre - t0) /\
          eta_minutes = (eta_seconds i total rate / 60)%Q).
Proof.
  intros self fuel w rows t0 enough. eexists. split.
  - apply (insert_loop_spec self fuel w rows t0 enough).
  - cbn [events]. split.
    + unfold progress_positions at 1.
      rewrite (events_after_flat_map self fuel w (length rows) t0
                 progress_position
                 (fun i row =>
                    if (i mod 10 =? 0) &&
                       succeeded (result_of self fuel w i row)
                    then [i] else [])).
      * reflexivity.
      * intros i row before _. unfold block. rewrite flat_map_app.
        destruct (attempts_of_shape self fuel enough w i row) as [k ->].
        change (flat_map progress_position
                  (map (attempt w i row LOCAL_QUORUM) (seq 0 (S k))))
          with (progress_positions
                  (map (attempt w i row LOCAL_QUORUM) (seq 0 (S k)))).
        rewrite progress_positions_attempts. cbn [app].
        unfold after_attempts. rewrite flat_map_app.
        destruct (result_of self fuel w i row);
          [destruct (i mod 10 =? 0)| |];
          destruct (i <? length rows); cbn [succeeded andb];
          rewrite ?andb_false_r; reflexivity.
    + intros pre post i total percent rate eta_minutes E.
      pose proof (events_after_progress_sound self fuel w (length rows) t0
                    enough (enumerate rows 1) [] I) as H.
      rewrite E in H. apply progress_lines_sound_app in H.
      destruct H as [_ H]. cbn [progress_lines_sound] in H.
      destruct H as [H _]. exact H.
Qed.

Lemma attempt_starts_app (l1 l2 : list Event) :
  forall t,
    attempt_starts t (l1 ++ l2) =
    attempt_starts t l1 ++ attempt_starts (advance t l1) l2.
Proof.
  induction l1 as [|ev l1 IH]; intros t; [reflexivity|].
  cbn [app attempt_starts advance]. rewrite IH, app_assoc. reflexivity.
Qed.

Lemma records_spaced_app (gap : Q) (l1 l2 : list (nat * Q)) :
  records_spaced gap l1 -> records_spaced gap l2 ->
  (forall a b, In a l1 -> In b l2 ->
               fst a <> fst b -> (snd a + gap <= snd b)%Q) ->
  records_spaced gap (l1 ++ l2).
Proof.
  induction l1 as [|a l1 IH]; intros H1 H2 Hc; [exact H2|].
  cbn [app records_spaced] in *. destruct H1 as [Ha H1]. split.
  - destruct l1 as [|b l1]; cbn [app].
    + destruct l2 as [|b l2]; [exact I|].
      apply Hc; [left | left]; reflexivity.
    + exact Ha.
  - apply IH; [exact H1 | exact H2 |].
    intros x y Hx Hy. apply Hc; [right; exact Hx | exact Hy].
Qed.

Lemma records_spaced_same (gap : Q) (i : nat) (l : list (nat * Q)) :
  Forall (fun a => fst a = i) l -> records_spaced gap l.
Proof.
  induction l as [|a l IH]; intros H; [exact I|].
  inversion H as [|? ? Ha Hl]; subst. cbn [records_spaced]. split.
  - destruct l as [|b l]; [exact I|].
    inversion Hl as [|? ? Hb _]; subst. intros Hne. congruence.
  - apply IH. exact Hl.
Qed.

(** Attempts start within the span of the events they are part of. *)
Lemma attempt_starts_bounds (evs : list Event) :
  forall t,
    Forall (fun ev => (0 <= seconds_of ev)%Q) evs ->
    (t <= advance t evs)%Q /\
    Forall (fun a => (t <= snd a)%Q /\
                     (snd a <= advance t evs)%Q) (attempt_starts t evs).
Proof.
  induction evs as [|ev evs IH]; intros t H.
  - cbn. split; [lra | constructor].
  - inversion H as [|? ? Hev Hevs]; subst.
    destruct (IH (t + seconds_of ev)%Q Hevs) as [B1 B2].
    cbn [advance attempt_starts]. split; [lra|].
    apply Forall_app. split.
    + destruct ev; constructor; try constructor; cbn [snd]; lra.
    + eapply Forall_impl; [|exact B2]. cbn beta. intros a [A1 A2].
      split; lra.
Qed.

Lemma attempt_starts_attempts (w : World) (i : nat) (row : Row)
    (cl : ConsistencyLevel) (k : nat) :
  forall a t,
    Forall (fun x => fst x = i)
      (attempt_starts t (map (attempt w i row cl) (seq a k))).
Proof.
  induction k as [|k IH]; intros a t; cbn; constructor;
    [reflexivity | apply IH].
Qed.

Section Spacing.

Variable self : KeyspacesRetryPolicy.t.
Variable fuel : nat.
Hypothesis enough : good_fuel self fuel.
Variable w : World.
Hypothesis latency_nonneg : nonnegative_latency w.
Variable n : nat.
Variable t0 : Q.

Lemma block_seconds_nonneg (i : nat) (row : Row) (before : list Event) :
  Forall (fun ev => (0 <= seconds_of ev)%Q)
    (block self fuel w n t0 i row before).
Proof.
  unfold block. apply Forall_app. split.
  - destruct (attempts_of_shape self fuel enough w i row) as [k ->].
    apply Forall_forall. intros ev Hev.
    apply in_map_iff in Hev. destruct Hev as [r [<- _]].
    cbn. apply latency_nonneg.
  - unfold after_attempts. apply Forall_app. split.
    + destruct (result_of self fuel w i row);
        [destruct (i mod 10 =? 0)| |];
        repeat constructor; cbn; lra.
    + destruct (i <? n); repeat constructor; cbn; lra.
Qed.

(** The attempts of a block are all on its record. *)
Lemma block_attempts_same_record (i : nat) (row : Row)
    (before : list Event) (t : Q) :
  Forall (fun a => fst a = i)
    (attempt_starts t (block self fuel w n t0 i row before)).
Proof.
  unfold block. rewrite attempt_starts_app. apply Forall_app. split.
  - destruct (attempts_of_shape self fuel enough w i row) as [k ->].
    apply attempt_starts_attempts.
  - unfold after_attempts.
    destruct (result_of self fuel w i row);
      [destruct (i mod 10 =? 0)| |];
      destruct (i <? n); cbn; constructor.
Qed.

(** A block that is followed by the pacing sleep ends at least one
    second after the start of each of its attempts. *)
Lemma block_ends_with_sleep (i : nat) (row : Row) (before : list Event)
    (t : Q) :
  i < n ->
  Forall (fun a => (snd a + 1 <= advance t
                      (block self fuel w n t0 i row before))%Q)
    (attempt_starts t (block self fuel w n t0 i row before)).
Proof.
  intros Hi. unfold block.
  rewrite attempt_starts_app, advance_app. apply Forall_app. split.
  - destruct (attempts_of_shape self fuel enough w i row) as [k E].
    assert (Hnn : Forall (fun ev => (0 <= seconds_of ev)%Q)
                    (attempts_of self fuel w i row)).
    { rewrite E. apply Forall_forall. intros ev Hev.
      apply in_map_iff in Hev. destruct Hev as [r [<- _]].
      cbn. apply latency_nonneg. }
    destruct (attempt_starts_bounds _ t Hnn) as [_ B].
    eapply Forall_impl; [|exact B]. cbn beta. intros a [_ A2].
    unfold after_attempts. apply Nat.ltb_lt in Hi. rewrite Hi.
    rewrite advance_app.
    destruct (result_of self fuel w i row);
      [destruct (i mod 10 =? 0)| |]; cbn; lra.
  - unfold after_attempts.
    destruct (result_of self fuel w i row);
      [destruct (i mod 10 =? 0)| |];
      destruct (i <? n); cbn; constructor.
Qed.

Lemma events_after_spaced (items : list (nat * Row)) :
  forall before : list Event,
    (forall pre i row post,
        items = pre ++ (i, row) :: post -> post <> [] -> i < n) ->
    records_spaced 1 (attempt_starts t0 before) ->
    (items <> [] ->
     Forall (fun a => (snd a + 1 <= advance t0 before)%Q)
       (attempt_starts t0 before)) ->
    records_spaced 1
      (attempt_starts t0 (events_after self fuel w n t0 items before)).
Proof.
  induction items as [|[i row] rest IH]; intros before Hlast Hs Hb;
    [exact Hs|].
  cbn [events_after].
  specialize (Hb ltac:(discriminate)).
  pose proof (block_seconds_nonneg i row before) as Hnn.
  destruct (attempt_starts_bounds _ (advance t0 before) Hnn) as [Bm Bs].
  apply IH.
  - intros pre j r post E. apply (Hlast ((i, row) :: pre) j r post).
    rewrite E. reflexivity.
  - rewrite attempt_starts_app. apply records_spaced_app.
    + exact Hs.
    + apply (records_spaced_same 1 i). apply block_attempts_same_record.
    + intros a b Ha Hb' _.
      rewrite Forall_forall in Hb, Bs.
      specialize (Hb a Ha). destruct (Bs b Hb') as [B1 _]. lra.
  - intros Hrest.
    assert (Hi : i < n).
    { apply (Hlast [] i row rest eq_refl Hrest). }
    rewrite attempt_starts_app, advance_app. apply Forall_app. split.
    + eapply Forall_impl; [|exact Hb]. cbn beta. intros a Ha. lra.
    + apply block_ends_with_sleep. exact Hi.
Qed.

End Spacing.

Lemma enumerate_all_but_last (rows : list Row) pre i row post :
  enumerate rows 1 = pre ++ (i, row) :: post ->
  post <> [] -> i < length rows.
Proof.
  intros E Hpost.
  destruct (enumerate_split_from _ _ _ _ _ _ E) as [-> _].
  pose proof (enumerate_length rows 1) as L. rewrite E in L.
  rewrite length_app in L. cbn [length] in L.
  destruct post; [congruence|]. cbn [length] in L. lia.
Qed.

(** C2, as the code has it: the rate is fixed at one record a second.
    When no attempt takes negative time, two successive write attempts on
    different records start at least one second apart.  (The retries of a
    record are sent by the driver at once: C6.) *)
Theorem C2_successive_records_one_second_apart :
  forall (self : KeyspacesRetryPolicy.t) (fuel : nat) (w : World)
         (rows : list Row) (t0 : Q),
    good_fuel self fuel ->
    nonnegative_latency w ->
    exists st,
      insert_loop fuel (keyspaces_profile self) w rows t0 = Some st /\
      records_spaced 1 (attempt_starts t0 (events st)).
Proof.
  intros self fuel w rows t0 enough Hlat. eexists. split.
  - apply (insert_loop_spec self fuel w rows t0 enough).
  - cbn [events].
    apply (events_after_spaced self fuel enough w Hlat).
    + intros pre i row post E. apply (enumerate_all_but_last rows _ _ _ _ E).
    + exact I.
    + intros _. constructor.
Qed.


(** ** Cancellation *)

(** The request loop reads the answers and the latencies of the
    environment and nothing else. *)
Lemma request_loop_ext (policy : RetryPolicy) (w1 w2 : World) :
  (forall i r, respond w1 i r = respond w2 i r) ->
  (forall i r, latency w1 i r = latency w2 i r) ->
  forall fuel i query cl r,
    request_loop fuel policy w1 i query cl r =
    request_loop fuel policy w2 i query cl r.
Proof.
  intros Hr Hl fuel.
  induction fuel as [|fuel IH]; intros i query cl r; [reflexivity|].
  cbn [request_loop]. rewrite Hr, Hl.
  destruct (respond w2 i r); try reflexivity;
    destruct (consult policy query cl _ r) as [[[] c]|];
    try reflexivity; rewrite IH; reflexivity.
Qed.

Lemma for_each_ext (fuel : nat) (prof : ExecutionProfile) (w1 w2 : World)
    (n : nat) (t0 : Q) :
  (forall i r, respond w1 i r = respond w2 i r) ->
  (forall i r, latency w1 i r = latency w2 i r) ->
  forall items st,
    for_each fuel prof w1 n t0 items st =
    for_each fuel prof w2 n t0 items st.
Proof.
  intros Hr Hl items.
  induction items as [|[i row] rest IH]; intros st; [reflexivity|].
  cbn [for_each]. unfold iteration, session_execute.
  rewrite (request_loop_ext _ w1 w2 Hr Hl).
  destruct (request_loop fuel (retry_policy prof) w2 i row
              (consistency_level prof) 0) as [[| response |] evs];
    try reflexivity.
  - destruct (i mod 10 =? 0); [|apply IH].
    destruct (progress_report i n _ t0); apply IH.
  - apply IH.
Qed.

(** C8, as the code has it: the loop has no cancellation check.  Whether
    and when cancellation is requested changes nothing: the run is the
    same, it makes an attempt on every record of [rows], and its counters
    cover all of them. *)
Theorem C8_no_cancellation_check :
  forall (self : KeyspacesRetryPolicy.t) (fuel : nat) (w : World)
         (rows : list Row) (t0 : Q) (cancel : option nat),
    good_fuel self fuel ->
    insert_loop fuel (keyspaces_profile self) (with_cancel w cancel) rows t0
    = insert_loop fuel (keyspaces_profile self) w rows t0 /\
    exists st,
      insert_loop fuel (keyspaces_profile self) (with_cancel w cancel)
        rows t0 = Some st /\
      map fst (first_attempts (events st)) = seq 1 (length rows) /\
      successful st + failed st = length rows.
Proof.
  intros self fuel w rows t0 cancel enough. split.
  - unfold insert_loop. apply for_each_ext; intros; reflexivity.
  - eexists. split.
    + apply (insert_loop_spec self fuel _ rows t0 enough).
    + cbn [events successful failed].
      rewrite (run_first_attempts self fuel enough).
      rewrite (count_if_total self fuel enough), enumerate_length.
      split; [apply enumerate_fst | reflexivity].
Qed.

(** * The claims on concrete runs *)

Lemma default_fuel : good_fuel default_policy 22.
Proof. unfold good_fuel. cbn. lia. Defined.

(** C1 at the default budget of 20: a record that always times out is sent
    22 times. *)
Lemma C1_always_transient_attempts_witness :
  good_fuel default_policy 22 /\
  (forall k,
      is_transient (respond (world always_write_timeout None) 1 k) = true) /\
  length (snd (session_execute 22 profile (world always_write_timeout None)
                 1 (movie "Heat"%string))) = 22.
Proof.
  split; [exact default_fuel|].
  split; [intros k; reflexivity|].
  exact (proj1 (proj2
    (C1_always_transient_attempts default_policy 22
       (world always_write_timeout None) 1 0%Q 1 (movie "Heat"%string)
       {| successful := 0; failed := 0; events := [] |}
       default_fuel (fun k => eq_refl)))).
Defined.

(** C2 as stated fails: the retry of record 1 starts 50 ms after the first
    attempt, not a second after it. *)
Lemma C2_counterexample :
  nonnegative_latency (world one_retry None) /\
  exists st,
    insert_loop 22 profile (world one_retry None) (movies 1) 0 = Some st /\
    attempt_starts 0 (events st) = [(1, 0%Q); (1, (0 + (1 # 20))%Q)] /\
    ~ all_spaced 1 (attempt_starts 0 (events st)).
Proof.
  split; [intros i r; cbn; lra|].
  eexists. split; [vm_compute; reflexivity|].
  split; [reflexivity|].
  cbn. intros [H _]. lra.
Qed.

Lemma C2_successive_records_one_second_apart_witness :
  good_fuel default_policy 22 /\
  nonnegative_latency (world one_retry None) /\
  exists st,
    insert_loop 22 profile (world one_retry None) (movies 3) 0 = Some st /\
    records_spaced 1 (attempt_starts 0 (events st)).
Proof.
  assert (H : nonnegative_latency (world one_retry None)).
  { intros i r. cbn. discriminate. }
  split; [exact default_fuel|]. split; [exact H|].
  exact (C2_successive_records_one_second_apart default_policy 22
           (world one_retry None) (movies 3) 0%Q default_fuel H).
Defined.

Lemma C3_counters_partition_the_records_witness :
  good_fuel default_policy 22 /\
  exists st,
    insert_loop 22 profile (world (invalid_at 2) None) (movies 3) 0
    = Some st /\
    successful st + failed st = attempted st /\ attempted st = 3.
Proof.
  split; [exact default_fuel|].
  exact (proj1 (C3_counters_partition_the_records default_policy 22
                  (world (invalid_at 2) None) default_fuel)
           (movies 3) 0%Q).
Defined.

Lemma C4_permanent_failure_single_attempt_no_abort_witness :
  good_fuel default_policy 22 /\
  is_permanent (respond (world (invalid_at 2) None) 2 0) = true /\
  iteration 22 profile (world (invalid_at 2) None) 3 0 2
    (movie "Heat"%string) {| successful := 1; failed := 0; events := [] |}
  = Some {| successful := 1;
            failed := 1;
            events :=
              [attempt (world (invalid_at 2) None) 2 (movie "Heat"%string)
                 LOCAL_QUORUM 0;
               EvError 2 "Heat"
                 (DriverError (InvalidRequestError "bad value"));
               EvSleep 1] |} /\
  exists st,
    insert_loop 22 profile (world (invalid_at 2) None) (movies 3) 0
    = Some st /\
    map snd (first_attempts (events st)) = movies 3 /\
    map fst (first_attempts (events st)) = [1; 2; 3] /\
    successful st + failed st = 3.
Proof.
  split; [exact default_fuel|]. split; [reflexivity|]. split.
  - exact (proj1 (C4_permanent_failure_single_attempt_no_abort
                    default_policy 22 (world (invalid_at 2) None)
                    default_fuel)
             3 0%Q 2 (movie "Heat"%string)
             {| successful := 1; failed := 0; events := [] |} eq_refl).
  - exact (proj2 (proj2 (C4_permanent_failure_single_attempt_no_abort
                           default_policy 22 (world (invalid_at 2) None)
                           default_fuel))
             (movies 3) 0%Q).
Defined.

(** C4 as stated fails: the write of record 1 ends with a failure the
    policy does not cover (the retry is refused as invalid after the first
    attempt timed out), the record is counted in [failed], and two
    attempts were made on it, not one. *)
Lemma C4_counterexample :
  is_permanent (respond (world timeout_then_invalid None) 1 1) = true /\
  exists st,
    insert_loop 22 profile (world timeout_then_invalid None) (movies 1) 0
    = Some st /\
    attempt_keys (events st) =
      [(1, movie "Heat"%string, 0); (1, movie "Heat"%string, 1)] /\
    In (EvError 1 "Heat" (DriverError (InvalidRequestError "bad value")))
       (events st) /\
    successful st = 0 /\ failed st = 1.
Proof.
  split; [reflexivity|].
  eexists. split; [vm_compute; reflexivity|].
  split; [reflexivity|]. split; [|split; reflexivity].
  cbn. right. right. left. reflexivity.
Qed.

(** C5 as stated fails.  Ten records of which the first is refused: the
    progress line is printed after record 10 although only 9 writes
    succeeded.  Eleven records of which the tenth is refused: 10 writes
    succeed and no progress line is printed. *)
Lemma C5_counterexample :
  (exists st,
      insert_loop 22 profile (world (invalid_at 1) None) (movies 10) 0
      = Some st /\
      successful st = 9 /\ progress_positions (events st) = [10]) /\
  (exists st,
      insert_loop 22 profile (world (invalid_at 10) None) (movies 11) 0
      = Some st /\
      successful st = 10 /\ progress_positions (events st) = []).
Proof.
  split; eexists; (split; [vm_compute; reflexivity|]);
    split; reflexivity.
Qed.

Lemma C5_progress_every_tenth_position_witness :
  good_fuel default_policy 22 /\
  exists st,
    insert_loop 22 profile (world all_applied None) (movies 20) 0
    = Some st /\
    progress_positions (events st) =
      flat_map
        (fun ir =>
           if (fst ir mod 10 =? 0) &&
              succeeded (result_of default_policy 22
                           (world all_applied None) (fst ir) (snd ir))
           then [fst ir] else [])
        (enumerate (movies 20) 1) /\
    (forall pre post i total percent rate eta_minutes,
        events st =
        pre ++ EvProgress i total percent rate eta_minutes :: post ->
        total = 20 /\
        percent = (of_nat i / of_nat total * 100)%Q /\
        rate = observed_rate i (advance 0 pre - 0) /\
        eta_minutes = (eta_seconds i total rate / 60)%Q).
Proof.
  split; [exact default_fuel|].
  exact (C5_progress_every_tenth_position default_policy 22
           (world all_applied None) (movies 20) 0%Q default_fuel).
Defined.

Lemma C7_records_attempted_in_source_order_witness :
  good_fuel default_policy 22 /\
  exists (st : LoopState) (made : nat -> Row -> nat),
    insert_loop 22 profile (world one_retry None) (movies 3) 0 = Some st /\
    (forall i row, 1 <= made i row) /\
    attempt_keys (events st) =
      flat_map (fun ir => map (fun r => (fst ir, snd ir, r))
                              (seq 0 (made (fst ir) (snd ir))))
               (enumerate (movies 3) 1) /\
    map snd (first_attempts (events st)) = movies 3 /\
    StronglySorted lt (reported (events st)).
Proof.
  split; [exact default_fuel|].
  exact (C7_records_attempted_in_source_order default_policy 22
           (world one_retry None) (movies 3) 0%Q default_fuel).
Defined.

(** C8 as stated fails: cancellation requested at the start of iteration 3
    of 5, and the run still makes its attempts on records 3, 4 and 5 and
    counts all five. *)
Lemma C8_counterexample :
  cancel_requested_at (world all_applied (Some 3)) = Some 3 /\
  exists st,
    insert_loop 22 profile (world all_applied (Some 3)) (movies 5) 0
    = Some st /\
    map fst (first_attempts (events st)) = [1; 2; 3; 4; 5] /\
    successful st + failed st = 5.
Proof.
  split; [reflexivity|].
  eexists. split; [vm_compute; reflexivity|].
  split; reflexivity.
Qed.

Lemma C8_no_cancellation_check_witness :
  good_fuel default_policy 22 /\
  exists st,
    insert_loop 22 profile
      (with_cancel (world all_applied None) (Some 3)) (movies 5) 0
    = Some st /\
    map fst (first_attempts (events st)) = seq 1 5 /\
    successful st + failed st = 5.
Proof.
  split; [exact default_fuel|].
  exact (proj2 (C8_no_cancellation_check default_policy 22
                  (world all_applied None) (movies 5) 0%Q (Some 3)
                  default_fuel)).
Defined.

Lemma C9_one_sleep_after_every_record_but_the_last_witness :
  good_fuel default_policy 22 /\
  exists st,
    insert_loop 22 profile (world (invalid_at 2) None) (movies 3) 0
    = Some st /\
    sleeps (events st) = [1%Q; 1%Q] /\
    pacing (events st) =
      [RecordStart 1; Pause 1; RecordStart 2; Pause 1; RecordStart 3].
Proof.
  split; [exact default_fuel|].
  exact (C9_one_sleep_after_every_record_but_the_last default_policy 22
           (world (invalid_at 2) None) (movies 3) 0%Q default_fuel).
Defined.

Lemma C10_progress_never_divides_by_zero_witness :
  good_fuel default_policy 22 /\
  (0 < 20) /\
  exists percent rate eta_minutes,
    progress_report 10 20 5 5 =
    Some (EvProgress 10 20 percent rate eta_minutes) /\
    ((5 - 5 == 0)%Q -> rate = 0%Q) /\
    ((rate == 0)%Q -> (eta_minutes == 0)%Q).
Proof.
  split; [exact default_fuel|]. split; [lia|].
  exact (proj1 (C10_progress_never_divides_by_zero default_policy 22
                  (world all_applied None) default_fuel)
           10 20 5%Q 5%Q ltac:(lia)).
Defined.

(** * Beyond the claims: more about the request loop and the run *)

Section DriverMore.

Variable self : KeyspacesRetryPolicy.t.
Variable w : World.
Variable i : nat.
Variable query : Row.

Let max := KeyspacesRetryPolicy.RETRY_MAX_ATTEMPTS self.

(** No call sends its statement more than [max + 2] times. *)
Lemma request_loop_length (fuel : nat) :
  forall (cl : ConsistencyLevel) (r : nat),
    r <= S max ->
    length (snd (request_loop fuel (as_policy self) w i query cl r))
    <= S (S max) - r.
Proof.
  induction fuel as [|fuel IH]; intros cl r Hr; [cbn; lia|].
  rewrite request_loop_step. fold max.
  destruct (Nat.leb_spec r max) as [L | L].
  - specialize (IH cl (S r) ltac:(lia)).
    destruct (request_loop fuel (as_policy self) w i query cl (S r))
      as [res evs].
    cbn [snd] in IH.
    destruct (respond w i r); cbn [is_transient andb snd length]; lia.
  - destruct (respond w i r); cbn [is_transient andb snd length]; lia.
Qed.

End DriverMore.

Lemma error_lines_attempts (w : World) (i : nat) (row : Row)
    (cl : ConsistencyLevel) (a k : nat) :
  error_lines (map (attempt w i row cl) (seq a k)) = [].
Proof.
  revert a. induction k as [|k IH]; intros a; [reflexivity|].
  cbn. apply IH.
Qed.

Lemma flat_map_length_bounds {A B : Type} (f : A -> list B) (lo hi : nat)
    (l : list A) :
  (forall x, In x l -> lo <= length (f x) <= hi) ->
  length l * lo <= length (flat_map f l) <= length l * hi.
Proof.
  induction l as [|x l IH]; intros H; [cbn; lia|].
  cbn [flat_map length]. rewrite length_app.
  specialize (H x (or_introl eq_refl)) as Hx.
  assert (Hl : length l * lo <= length (flat_map f l) <= length l * hi).
  { apply IH. intros y Hy. apply H. right. exact Hy. }
  lia.
Qed.

Lemma flat_map_pick_length {A B : Type} (f : A -> bool) (g : A -> B)
    (l : list A) :
  length (flat_map (fun x => if f x then [g x] else []) l) =
  length (filter f l).
Proof.
  induction l as [|x l IH]; [reflexivity|].
  cbn [flat_map filter]. destruct (f x); cbn [app length]; lia.
Qed.

Section RunMore.

Variable self : KeyspacesRetryPolicy.t.
Variable fuel : nat.
Hypothesis enough : good_fuel self fuel.
Variable w : World.

(** The write attempts of a run, record after record. *)
Lemma run_attempt_keys (rows : list Row) (t0 : Q) :
  attempt_keys
    (events_after self fuel w (length rows) t0 (enumerate rows 1) []) =
  flat_map (fun ir => map (fun r => (fst ir, snd ir, r))
                          (seq 0 (length (attempts_of self fuel w
                                            (fst ir) (snd ir)))))
           (enumerate rows 1).
Proof.
  unfold attempt_keys at 1.
  rewrite (events_after_flat_map self fuel w (length rows) t0
             attempt_key
             (fun i row =>
                map (fun r => (i, row, r))
                    (seq 0 (length (attempts_of self fuel w i row))))).
  - reflexivity.
  - intros i row before _. unfold block. rewrite flat_map_app.
    rewrite after_attempts_proj, app_nil_r
      by (intros [] H; try reflexivity; discriminate H).
    destruct (attempts_of_shape self fuel enough w i row) as [k ->].
    change (flat_map attempt_key ?l) with (attempt_keys l).
    rewrite attempt_keys_attempts, length_map, length_seq. reflexivity.
Qed.

Lemma attempts_of_length (i : nat) (row : Row) :
  1 <= length (attempts_of self fuel w i row)
  <= KeyspacesRetryPolicy.RETRY_MAX_ATTEMPTS self + 2.
Proof.
  split.
  - destruct (attempts_of_shape self fuel enough w i row) as [k ->].
    rewrite length_map, length_seq. lia.
  - unfold attempts_of, session_execute.
    cbn [retry_policy consistency_level keyspaces_profile].
    pose proof (request_loop_length self w i row fuel LOCAL_QUORUM 0
                  ltac:(lia)) as H.
    lia.
Qed.

Lemma run_error_lines (rows : list Row) (t0 : Q) :
  error_lines
    (events_after self fuel w (length rows) t0 (enumerate rows 1) []) =
  flat_map (fun ir =>
              if raised (result_of self fuel w (fst ir) (snd ir))
              then [(fst ir, title (snd ir))] else [])
           (enumerate rows 1).
Proof.
  unfold error_lines at 1.
  rewrite (events_after_flat_map self fuel w (length rows) t0
             error_line
             (fun i row =>
                if raised (result_of self fuel w i row)
                then [(i, title row)] else [])).
  - reflexivity.
  - intros i row before _. unfold block. rewrite flat_map_app.
    destruct (attempts_of_shape self fuel enough w i row) as [k ->].
    change (flat_map error_line
              (map (attempt w i row LOCAL_QUORUM) (seq 0 (S k))))
      with (error_lines (map (attempt w i row LOCAL_QUORUM) (seq 0 (S k)))).
    rewrite error_lines_attempts. cbn [app].
    unfold after_attempts. rewrite flat_map_app.
    destruct (result_of self fuel w i row);
      [destruct (i mod 10 =? 0)| |];
      destruct (i <? length rows); reflexivity.
Qed.

End RunMore.

(** X3: no record is sent more than [RETRY_MAX_ATTEMPTS + 2] times: the
    write attempts of a run are, record after record in the order of
    [rows], the attempts 0 .. made - 1 of each record, with made at most
    [RETRY_MAX_ATTEMPTS + 2] for every record; so a run over n records
    makes at most n * (RETRY_MAX_ATTEMPTS + 2) write attempts. *)
Theorem X3_attempts_of_a_run_bounded :
  forall (self : KeyspacesRetryPolicy.t) (fuel : nat) (w : World)
         (rows : list Row) (t0 : Q),
    good_fuel self fuel ->
    exists (st : LoopState) (made : nat -> Row -> nat),
      insert_loop fuel (keyspaces_profile self) w rows t0 = Some st /\
      attempt_keys (events st) =
        flat_map (fun ir => map (fun r => (fst ir, snd ir, r))
                                (seq 0 (made (fst ir) (snd ir))))
                 (combine (seq 1 (length rows)) rows) /\
      (forall i row,
          made i row <= KeyspacesRetryPolicy.RETRY_MAX_ATTEMPTS self + 2) /\
      length (attempt_keys (events st))
      <= length rows * (KeyspacesRetryPolicy.RETRY_MAX_ATTEMPTS self + 2).
Proof.
  intros self fuel w rows t0 enough.
  eexists. exists (fun i row => length (attempts_of self fuel w i row)).
  split; [apply (insert_loop_spec self fuel w rows t0 enough)|].
  cbn [events]. rewrite (run_attempt_keys self fuel enough).
  split; [reflexivity|]. split.
  - intros i row. apply (attempts_of_length self fuel enough).
  - pose proof (flat_map_length_bounds
                  (fun ir : nat * Row =>
                     map (fun r => (fst ir, snd ir, r))
                       (seq 0 (length (attempts_of self fuel w
                                         (fst ir) (snd ir)))))
                  0 (KeyspacesRetryPolicy.RETRY_MAX_ATTEMPTS self + 2)
                  (enumerate rows 1)) as H.
    rewrite enumerate_length in H. apply H.
    intros [i row] _. cbn [fst snd]. rewrite length_map, length_seq.
    pose proof (attempts_of_length self fuel enough w i row). lia.
Qed.

(** X4: the run prints one error line for every record whose call raised
    and for no other, in the order of [rows], each with the position and
    the title of its record; [failed] is the number of error lines. *)
Theorem X4_one_error_line_per_failed_record :
  forall (self : KeyspacesRetryPolicy.t) (fuel : nat) (w : World)
         (rows : list Row) (t0 : Q),
    good_fuel self fuel ->
    exists st,
      insert_loop fuel (keyspaces_profile self) w rows t0 = Some st /\
      error_lines (events st) =
        flat_map (fun ir =>
                    if raised (result_of self fuel w (fst ir) (snd ir))
                    then [(fst ir, title (snd ir))] else [])
                 (enumerate rows 1) /\
      failed st = length (error_lines (events st)).
Proof.
  intros self fuel w rows t0 enough. eexists. split.
  - apply (insert_loop_spec self fuel w rows t0 enough).
  - cbn [events failed]. rewrite (run_error_lines self fuel enough).
    split; [reflexivity|].
    unfold count_if.
    rewrite (flat_map_pick_length
               (fun ir => raised (result_of self fuel w (fst ir) (snd ir)))
               (fun ir => (fst ir, title (snd ir)))).
    reflexivity.
Qed.

(** ** How long a run takes, and the summary after it *)

Lemma advance_covers_sleeps (evs : list Event) :
  forall t,
    Forall (fun ev => (0 <= seconds_of ev)%Q) evs ->
    (t + Qsum (sleeps evs) <= advance t evs)%Q.
Proof.
  induction evs as [|ev evs IH]; intros t H.
  - cbn. lra.
  - inversion H as [|? ? Hev Hevs]; subst.
    specialize (IH (t + seconds_of ev)%Q Hevs).
    cbn [advance]. unfold sleeps, Qsum in *. cbn [flat_map].
    set (rest := fold_right Qplus 0%Q (flat_map sleep_seconds evs)) in *.
    destruct ev; cbn [sleep_seconds app seconds_of fold_right] in *;
      fold rest; lra.
Qed.

Lemma Qsum_ones (k : nat) : (Qsum (repeat 1%Q k) == of_nat k)%Q.
Proof.
  induction k as [|k IH]; [reflexivity|].
  unfold Qsum in *. cbn [repeat fold_right]. rewrite IH.
  unfold of_nat. rewrite Nat2Z.inj_succ, <- Z.add_1_l, inject_Z_plus.
  reflexivity.
Qed.

Lemma events_after_seconds_nonneg (self : KeyspacesRetryPolicy.t)
    (fuel : nat) (w : World) (n : nat) (t0 : Q) :
  good_fuel self fuel -> nonnegative_latency w ->
  forall (items : list (nat * Row)) (before : list Event),
    Forall (fun ev => (0 <= seconds_of ev)%Q) before ->
    Forall (fun ev => (0 <= seconds_of ev)%Q)
      (events_after self fuel w n t0 items before).
Proof.
  intros enough Hlat items.
  induction items as [|[i row] rest IH]; intros before H; [exact H|].
  cbn [events_after]. apply IH. apply Forall_app. split; [exact H|].
  apply (block_seconds_nonneg self fuel enough w Hlat).
Qed.

Lemma run_sleeps (self : KeyspacesRetryPolicy.t) (fuel : nat) (w : World)
    (rows : list Row) (t0 : Q) :
  good_fuel self fuel ->
  sleeps (events_after self fuel w (length rows) t0 (enumerate rows 1) [])
  = repeat 1%Q (length rows - 1).
Proof.
  intros enough. unfold sleeps.
  rewrite (events_after_flat_map self fuel w (length rows) t0
             sleep_seconds
             (fun i _ => if i <? length rows then [1%Q] else [])).
  - cbn [flat_map app].
    rewrite (flat_map_fst
               (fun i => if i <? length rows then [1%Q] else [])),
      enumerate_fst.
    apply sleeps_between_records.
  - intros i row before _. unfold block. rewrite flat_map_app.
    destruct (attempts_of_shape self fuel enough w i row) as [k ->].
    change (flat_map sleep_seconds ?l) with (sleeps l).
    rewrite sleeps_attempts, after_attempts_sleeps. reflexivity.
Qed.

Lemma of_nat_nonneg (k : nat) : (0 <= of_nat k)%Q.
Proof. unfold of_nat, Qle. cbn. lia. Qed.

Lemma of_nat_le (a b : nat) : a <= b -> (of_nat a <= of_nat b)%Q.
Proof. intros H. unfold of_nat, Qle. cbn. lia. Qed.

Lemma of_nat_pos (k : nat) : 0 < k -> (0 < of_nat k)%Q.
Proof. intros H. unfold of_nat, Qlt. cbn. lia. Qed.

(** X5: a run over n records takes at least n - 1 seconds (when no
    attempt takes negative time).  The summary after the loop divides
    [successful] by the total time without a guard: it prints three lines
    and then raises ZeroDivisionError when the clock has not moved since
    the start; after a run over two records or more it prints all four
    lines, the last with the rate [successful / total_time]. *)
Theorem X5_run_duration_and_summary :
  forall (self : KeyspacesRetryPolicy.t) (fuel : nat) (w : World)
         (rows : list Row) (t0 : Q),
    good_fuel self fuel ->
    nonnegative_latency w ->
    exists st,
      insert_loop fuel (keyspaces_profile self) w rows t0 = Some st /\
      (of_nat (length rows - 1) <= time_time t0 st - t0)%Q /\
      (forall now,
          (now - t0 == 0)%Q ->
          insert_summary st t0 now =
          ([InsertCompleted (now - t0); SuccessfulCount (successful st);
            FailedCount (failed st)], Some ZeroDivisionError)) /\
      (2 <= length rows ->
       insert_summary st t0 (time_time t0 st) =
       ([InsertCompleted (time_time t0 st - t0);
         SuccessfulCount (successful st);
         FailedCount (failed st);
         AverageRate (of_nat (successful st) / (time_time t0 st - t0))],
        None)).
Proof.
  intros self fuel w rows t0 enough Hlat. eexists. split.
  - apply (insert_loop_spec self fuel w rows t0 enough).
  - unfold time_time. cbn [events successful failed].
    set (evs := events_after self fuel w (length rows) t0
                  (enumerate rows 1) []).
    assert (D : (of_nat (length rows - 1) <= advance t0 evs - t0)%Q).
    { pose proof (advance_covers_sleeps evs t0
                    (events_after_seconds_nonneg self fuel w (length rows)
                       t0 enough Hlat (enumerate rows 1) []
                       (Forall_nil _))) as H.
      unfold evs in H at 1. rewrite (run_sleeps self fuel w rows t0 enough) in H.
      rewrite Qsum_ones in H. fold evs in H. lra. }
    split; [exact D|]. split.
    + intros now E. unfold insert_summary, truediv.
      apply Qeq_bool_iff in E. rewrite E. reflexivity.
    + intros Hn. unfold insert_summary.
      rewrite truediv_nonzero; [reflexivity|].
      intros E. rewrite E in D.
      pose proof (of_nat_pos (length rows - 1) ltac:(lia)) as P. lra.
Qed.

(** X6: inside the loop (1 <= i <= len(rows)) the values on a progress
    line are in range: the percentage is above 0 and at most 100, the rate
    and the estimated time remaining are not negative, and the estimate is
    0 at the last record. *)
Theorem X6_progress_values_in_range :
  forall (i total : nat) (now start_time : Q),
    1 <= i <= total ->
    exists percent rate eta_minutes,
      progress_report i total now start_time =
      Some (EvProgress i total percent rate eta_minutes) /\
      (0 < percent)%Q /\ (percent <= 100)%Q /\
      (0 <= rate)%Q /\ (0 <= eta_minutes)%Q /\
      (i = total -> (eta_minutes == 0)%Q).
Proof.
  intros i total now start_time [Hi Ht].
  do 3 eexists. split.
  { apply progress_report_value. lia. }
  pose proof (of_nat_pos i ltac:(lia)) as Pi.
  pose proof (of_nat_pos total ltac:(lia)) as Pt.
  pose proof (of_nat_le i total Ht) as Lit.
  assert (F1 : (0 < of_nat i / of_nat total)%Q).
  { apply Qlt_shift_div_l; [exact Pt | lra]. }
  assert (F2 : (of_nat i / of_nat total <= 1)%Q).
  { apply Qle_shift_div_r; [exact Pt | lra]. }
  assert (R : (0 <= observed_rate i (now - start_time))%Q).
  { unfold observed_rate.
    destruct (Qlt_bool 0 (now - start_time)) eqn:E; [|lra].
    apply Qlt_bool_iff in E.
    apply Qle_shift_div_l; [exact E | lra]. }
  assert (S0 : forall rate, (0 <= eta_seconds i total rate)%Q).
  { intros rate. unfold eta_seconds.
    destruct (Qlt_bool 0 rate) eqn:E; [|lra].
    apply Qlt_bool_iff in E.
    apply Qle_shift_div_l; [exact E|].
    rewrite Qmult_0_l. unfold Qle. cbn. lia. }
  repeat split.
  - set (x := (of_nat i / of_nat total)%Q) in *. lra.
  - set (x := (of_nat i / of_nat total)%Q) in *. lra.
  - exact R.
  - apply Qle_shift_div_l; [reflexivity|].
    rewrite Qmult_0_l. apply S0.
  - intros ->. unfold eta_seconds.
    destruct (Qlt_bool 0 (observed_rate total (now - start_time)));
      [|reflexivity].
    rewrite Z.sub_diag. unfold Qdiv. rewrite !Qmult_0_l. reflexivity.
Qed.

(** * Waiting for the table *)

(** One pass that does not find the table active: the query, the line it
    prints and the sleep. *)
Lemma wait_passes_counts (poll : nat -> PollResult) (d : nat) :
  forall (k : nat) (tail : list WaitEvent),
    wait_queries
      (flat_map (fun j => [WQuery; waiting_line (poll j) j; WSleep 1])
                (seq k d) ++ tail) = d + wait_queries tail /\
    wait_slept
      (flat_map (fun j => [WQuery; waiting_line (poll j) j; WSleep 1])
                (seq k d) ++ tail) = d + wait_slept tail.
Proof.
  induction d as [|d IH]; intros k tail; [split; reflexivity|].
  destruct (IH (S k) tail) as [IH1 IH2].
  unfold wait_queries, wait_slept in *.
  cbn [seq flat_map app filter fold_right length].
  destruct (poll k); cbn [waiting_line]; rewrite ?IH1, ?IH2; split; lia.
Qed.

Section Wait.

Variable poll : nat -> PollResult.
Variable mx : nat.

Lemma wait_loop_active_at (d : nat) :
  forall fuel k,
    (forall j, k <= j < k + d -> is_active (poll j) = false) ->
    is_active (poll (k + d)) = true ->
    k + d < mx -> S d <= fuel ->
    wait_loop fuel mx 1 poll k k =
    Some (k + d,
          flat_map (fun j => [WQuery; waiting_line (poll j) j; WSleep 1])
                   (seq k d) ++ [WQuery; WActive]).
Proof.
  induction d as [|d IH]; intros fuel k Hn Ha Hk Hf;
    (destruct fuel as [|fuel]; [lia|]); cbn [wait_loop].
  - rewrite Nat.add_0_r in *.
    destruct (Nat.ltb_spec k mx); [|lia]. rewrite Ha. reflexivity.
  - destruct (Nat.ltb_spec k mx); [|lia].
    rewrite (Hn k ltac:(lia)). rewrite Nat.add_1_r.
    rewrite (IH fuel (S k)); try lia.
    + replace (S k + d) with (k + S d) by lia. reflexivity.
    + intros j Hj. apply Hn. lia.
    + replace (S k + d) with (k + S d) by lia. exact Ha.
Qed.

Lemma wait_loop_timeout (d : nat) :
  forall fuel k,
    k + d = mx ->
    (forall j, k <= j < mx -> is_active (poll j) = false) ->
    S d <= fuel ->
    wait_loop fuel mx 1 poll k k =
    Some (mx,
          flat_map (fun j => [WQuery; waiting_line (poll j) j; WSleep 1])
                   (seq k d)).
Proof.
  induction d as [|d IH]; intros fuel k Hk Hn Hf;
    (destruct fuel as [|fuel]; [lia|]); cbn [wait_loop].
  - destruct (Nat.ltb_spec k mx); [lia|].
    replace mx with k by lia. reflexivity.
  - destruct (Nat.ltb_spec k mx); [|lia].
    rewrite (Hn k ltac:(lia)). rewrite Nat.add_1_r.
    rewrite (IH fuel (S k)); try lia; [reflexivity|].
    intros j Hj. apply Hn. lia.
Qed.

(** Either some pass among the first [n] finds the table active, and then
    there is a first one, or none does. *)
Lemma first_active_or_none (n : nat) :
  (exists k, k < n /\ is_active (poll k) = true /\
             forall j, j < k -> is_active (poll j) = false) \/
  (forall j, j < n -> is_active (poll j) = false).
Proof.
  induction n as [|n [[k [Hk [Ha Hb]]] | Hnone]].
  - right. intros j Hj. lia.
  - left. exists k. repeat split; [lia | exact Ha | exact Hb].
  - destruct (is_active (poll n)) eqn:E.
    + left. exists n. repeat split; [lia | exact E | exact Hnone].
    + right. intros j Hj.
      destruct (Nat.eq_dec j n) as [-> | Hne]; [exact E|].
      apply Hnone. lia.
Qed.

End Wait.

Lemma wait_for_table_active (poll : nat -> PollResult) (k : nat) :
  k < max_wait_time ->
  is_active (poll k) = true ->
  (forall j, j < k -> is_active (poll j) = false) ->
  wait_for_table poll =
  Some (flat_map (fun j => [WQuery; waiting_line (poll j) j; WSleep 1])
                 (seq 0 k) ++ [WQuery; WActive; WReady]).
Proof.
  intros Hk Ha Hn. unfold wait_for_table, wait_interval.
  rewrite (wait_loop_active_at poll max_wait_time k (S max_wait_time) 0);
    cbn [Nat.add]; try assumption; try lia.
  - destruct (Nat.leb_spec max_wait_time k); [lia|].
    rewrite <- app_assoc. reflexivity.
  - intros j Hj. apply Hn. lia.
Qed.

Lemma wait_for_table_timeout (poll : nat -> PollResult) :
  (forall j, j < max_wait_time -> is_active (poll j) = false) ->
  wait_for_table poll =
  Some (flat_map (fun j => [WQuery; waiting_line (poll j) j; WSleep 1])
                 (seq 0 max_wait_time) ++ [WWarning max_wait_time]).
Proof.
  intros Hn. unfold wait_for_table, wait_interval.
  rewrite (wait_loop_timeout poll max_wait_time max_wait_time
             (S max_wait_time) 0); try lia.
  - rewrite Nat.leb_refl. reflexivity.
  - intros j Hj. apply Hn. lia.
Qed.

(** X7: when pass number k (counted from 0, k < 120) is the first to find
    the table ACTIVE, the wait makes exactly k + 1 status queries, sleeps
    k seconds in all, and ends with the "ready" message; what the earlier
    passes found (another status, no row, an exception) makes no
    difference to that. *)
Theorem X7_wait_ends_at_first_active_status :
  forall (poll : nat -> PollResult) (k : nat),
    k < max_wait_time ->
    is_active (poll k) = true ->
    (forall j, j < k -> is_active (poll j) = false) ->
    exists evs,
      wait_for_table poll = Some evs /\
      evs = flat_map (fun j => [WQuery; waiting_line (poll j) j; WSleep 1])
                     (seq 0 k) ++ [WQuery; WActive; WReady] /\
      wait_queries evs = k + 1 /\ wait_slept evs = k.
Proof.
  intros poll k Hk Ha Hn. eexists. split.
  - apply (wait_for_table_active poll k Hk Ha Hn).
  - split; [reflexivity|].
    destruct (wait_passes_counts poll k 0 [WQuery; WActive; WReady])
      as [H1 H2].
    rewrite H1, H2. cbn. split; lia.
Qed.

(** X8: when none of the first 120 passes finds the table ACTIVE, the wait
    gives up after exactly 120 status queries and 120 seconds of sleep and
    prints the warning; the script then goes on. *)
Theorem X8_wait_gives_up_after_max_wait_time :
  forall (poll : nat -> PollResult),
    (forall j, j < max_wait_time -> is_active (poll j) = false) ->
    exists evs,
      wait_for_table poll = Some evs /\
      evs = flat_map (fun j => [WQuery; waiting_line (poll j) j; WSleep 1])
                     (seq 0 max_wait_time) ++ [WWarning max_wait_time] /\
      wait_queries evs = max_wait_time /\ wait_slept evs = max_wait_time.
Proof.
  intros poll Hn. eexists. split.
  - apply (wait_for_table_timeout poll Hn).
  - split; [reflexivity|].
    destruct (wait_passes_counts poll max_wait_time 0
                [WWarning max_wait_time]) as [H1 H2].
    rewrite H1, H2. cbn [wait_queries wait_slept filter fold_right length].
    split; lia.
Qed.

(** X9: whatever the status queries return or raise, the wait returns
    after at most 120 queries and at most 120 seconds of sleep, and its
    last message is "ready" exactly when one of the first 120 passes found
    the table ACTIVE. *)
Theorem X9_wait_always_returns_within_bounds :
  forall (poll : nat -> PollResult),
    exists evs,
      wait_for_table poll = Some evs /\
      wait_queries evs <= max_wait_time /\
      wait_slept evs <= max_wait_time /\
      (last evs WQuery = WReady <->
       exists k, k < max_wait_time /\ is_active (poll k) = true).
Proof.
  intros poll.
  destruct (first_active_or_none poll max_wait_time)
    as [[k [Hk [Ha Hn]]] | Hnone].
  - eexists. split; [apply (wait_for_table_active poll k Hk Ha Hn)|].
    destruct (wait_passes_counts poll k 0 [WQuery; WActive; WReady])
      as [H1 H2].
    rewrite H1, H2. cbn [wait_queries wait_slept filter fold_right length].
    repeat split; try lia.
    + intros _. exists k. split; assumption.
    + intros _.
      change [WQuery; WActive; WReady] with ([WQuery; WActive] ++ [WReady]).
      rewrite app_assoc. apply last_last.
  - eexists. split; [apply (wait_for_table_timeout poll Hnone)|].
    destruct (wait_passes_counts poll max_wait_time 0
                [WWarning max_wait_time]) as [H1 H2].
    rewrite H1, H2. cbn [wait_queries wait_slept filter fold_right length].
    repeat split; try lia.
    + rewrite last_last. discriminate.
    + intros [k [Hk Ha]]. rewrite (Hnone k Hk) in Ha. discriminate.
Qed.

(** * Reading the CSV file *)

Section Csv.

Variable py : Builtins.

(** A converted row carries the three text columns as they are in the
    file. *)
Lemma convert_text_columns (r : CsvRecord) (row : Row) :
  convert py r = inr row ->
  title row = csv_title r /\ overview row = csv_overview r /\
  original_lang row = csv_original_lang r.
Proof.
  unfold convert. intros H.
  destruct (py_strptime py (csv_rel_date r)); [|discriminate].
  destruct (py_float py (csv_popularity r)); [|discriminate].
  destruct (py_int py (csv_vote_count r)); [|discriminate].
  destruct (py_float py (csv_vote_average r)); [|discriminate].
  injection H as <-. repeat split.
Qed.

Lemma read_csv_app (pre rest : list CsvRecord) :
  forall rows skipped,
    read_csv py (pre ++ rest) rows skipped =
    match read_csv py pre rows skipped with
    | inl e => inl e
    | inr (rows', skipped') => read_csv py rest rows' skipped'
    end.
Proof.
  induction pre as [|r pre IH]; intros rows skipped; [reflexivity|].
  cbn [app read_csv].
  destruct (invalid_date py r); [apply IH|].
  destruct (convert py r); [reflexivity | apply IH].
Qed.

Lemma read_csv_all_convert (reader : list CsvRecord) :
  forall rows skipped,
    (forall r, In r reader -> invalid_date py r = false ->
               exists row, convert py r = inr row) ->
    exists new,
      read_csv py reader rows skipped =
      inr (rows ++ new,
           skipped ++ map csv_title (filter (invalid_date py) reader)) /\
      Forall2 (fun r row => convert py r = inr row)
              (filter (valid_date py) reader) new.
Proof.
  induction reader as [|r reader IH]; intros rows skipped H.
  - exists []. cbn. rewrite !app_nil_r. split; [reflexivity | constructor].
  - cbn [read_csv filter]. unfold valid_date at 1.
    destruct (invalid_date py r) eqn:E; cbn [negb map].
    + destruct (IH rows (skipped ++ [csv_title r])) as [new [E1 F]].
      { intros r' Hr'. apply H. right. exact Hr'. }
      exists new. rewrite E1, <- app_assoc. split; [reflexivity | exact F].
    + destruct (H r (or_introl eq_refl) E) as [row Hrow]. rewrite Hrow.
      destruct (IH (rows ++ [row]) skipped) as [new [E1 F]].
      { intros r' Hr'. apply H. right. exact Hr'. }
      exists (row :: new). rewrite E1, <- app_assoc.
      split; [reflexivity | constructor; assumption].
Qed.

Lemma read_csv_without_skipped (reader : list CsvRecord) :
  forall rows skipped1 skipped2,
    same_load (read_csv py reader rows skipped1)
              (read_csv py (filter (valid_date py) reader) rows skipped2)
              skipped2.
Proof.
  induction reader as [|r reader IH]; intros rows skipped1 skipped2.
  - cbn. split; reflexivity.
  - cbn [read_csv filter]. unfold valid_date at 1.
    destruct (invalid_date py r) eqn:E; cbn [negb]; [apply IH|].
    cbn [read_csv]. rewrite E.
    destruct (convert py r); [reflexivity | apply IH].
Qed.

End Csv.

Lemma filter_partition_length {A : Type} (f : A -> bool) (l : list A) :
  length (filter (fun x => negb (f x)) l) + length (filter f l) = length l.
Proof.
  induction l as [|x l IH]; [reflexivity|].
  cbn [filter]. destruct (f x); cbn [negb length]; lia.
Qed.

(** X10: when every row with a usable date converts, the load keeps
    exactly the rows whose date is neither "NaN" nor blank, in the order
    of the file, each converted from its own CSV row with title, overview
    and language unchanged; the other rows are skipped with their title
    printed; kept and skipped rows together are all the rows of the
    file. *)
Theorem X10_load_keeps_rows_with_a_date :
  forall (py : Builtins) (reader : list CsvRecord),
    (forall r, In r reader -> invalid_date py r = false ->
               exists row, convert py r = inr row) ->
    exists rows skipped,
      load_rows py reader = inr (rows, skipped) /\
      Forall2 (fun r row => convert py r = inr row)
              (filter (valid_date py) reader) rows /\
      map title rows = map csv_title (filter (valid_date py) reader) /\
      skipped = map csv_title (filter (invalid_date py) reader) /\
      length rows + length skipped = length reader.
Proof.
  intros py reader H.
  destruct (read_csv_all_convert py reader [] [] H) as [new [E F]].
  cbn [app] in E. exists new. eexists. split; [exact E|].
  split; [exact F|].
  assert (T : map title new = map csv_title (filter (valid_date py) reader)).
  { clear E. induction F as [|r row kept new' Hc F IH]; [reflexivity|].
    cbn [map]. f_equal; [|exact IH].
    apply (convert_text_columns py r row Hc). }
  split; [exact T|]. split; [reflexivity|].
  rewrite length_map.
  rewrite <- (length_map title new), T, length_map.
  apply (filter_partition_length (invalid_date py) reader).
Qed.

(** X11: the first row that has a usable date and a column that does not
    convert ends the load with that ValueError: no row is returned,
    whatever was read before it and whatever comes after it. *)
Theorem X11_first_bad_row_ends_the_load :
  forall (py : Builtins) (pre post : list CsvRecord) (r : CsvRecord)
         (field : CsvField),
    (forall r', In r' pre -> invalid_date py r' = false ->
                exists row, convert py r' = inr row) ->
    invalid_date py r = false ->
    convert py r = inl field ->
    load_rows py (pre ++ r :: post) = inl (field, r).
Proof.
  intros py pre post r field Hpre Hr Hc.
  unfold load_rows. rewrite read_csv_app.
  destruct (read_csv_all_convert py pre [] [] Hpre) as [new [E _]].
  rewrite E. cbn [read_csv]. rewrite Hr, Hc. reflexivity.
Qed.

(** X12: the rows skipped for their date have no influence on the load:
    with them or without them in the file the same rows are loaded, or
    the same ValueError ends the load, even when their other columns hold
    values that would not convert. *)
Theorem X12_skipped_rows_do_not_matter :
  forall (py : Builtins) (reader : list CsvRecord),
    same_load (load_rows py reader)
              (load_rows py (filter (valid_date py) reader)) [].
Proof.
  intros py reader. unfold load_rows.
  apply (read_csv_without_skipped py reader [] [] []).
Qed.

(** * Showing sample rows *)

Lemma show_samples_spec {A : Type} (rs : list A) :
  forall (m count : nat) (printed : list (nat * A)),
    count + S m = 5 ->
    show_samples rs count printed =
    (count + Nat.min (S m) (length rs),
     printed ++ combine (seq (count + 1) (S m)) (firstn (S m) rs)).
Proof.
  induction rs as [|row rest IH]; intros m count printed H.
  - cbn. rewrite Nat.add_0_r, app_nil_r. reflexivity.
  - cbn [show_samples].
    destruct (Nat.leb_spec 5 (count + 1)) as [L | L].
    + assert (m = 0) by lia. subst m.
      cbn [length Nat.min firstn seq combine]. reflexivity.
    + destruct m as [|m]; [lia|].
      rewrite (IH m (count + 1) _ ltac:(lia)).
      cbn [length firstn seq combine].
      rewrite <- app_assoc. cbn [app].
      replace (count + 1 + 1) with (S (count + 1)) by lia.
      f_equal.
      rewrite <- Nat.succ_min_distr. lia.
Qed.

(** X13: the sample display prints the first five rows of the result set,
    numbered from 1, or all of them when there are fewer, and its counter
    ends at the number of rows printed. *)
Theorem X13_samples_are_the_first_five_rows :
  forall (A : Type) (rs : list A),
    show_samples rs 0 [] =
    (Nat.min 5 (length rs), combine (seq 1 5) (firstn 5 rs)).
Proof.
  intros A rs. apply (show_samples_spec rs 4 0 [] eq_refl).
Qed.

(** * From the file to the table *)

(** X14: read and insert together: when every row with a usable date
    converts, the records the run makes its first attempts on are, in file
    order, exactly the rows of the CSV file whose date is neither "NaN"
    nor blank, one first attempt each; a row skipped for its date is never
    sent. *)
Theorem X14_rows_with_a_date_are_the_records_sent :
  forall (py : Builtins) (self : KeyspacesRetryPolicy.t) (fuel : nat)
         (w : World) (reader : list CsvRecord) (t0 : Q),
    good_fuel self fuel ->
    (forall r, In r reader -> invalid_date py r = false ->
               exists row, convert py r = inr row) ->
    exists st,
      load_and_insert py fuel (keyspaces_profile self) w reader t0
      = inr (Some st) /\
      map (fun ir => title (snd ir)) (first_attempts (events st)) =
      map csv_title (filter (valid_date py) reader) /\
      map fst (first_attempts (events st)) =
      seq 1 (length (filter (valid_date py) reader)).
Proof.
  intros py self fuel w reader t0 enough H.
  destruct (read_csv_all_convert py reader [] [] H) as [rows [E F]].
  cbn [app] in E.
  unfold load_and_insert, load_rows. rewrite E.
  rewrite (insert_loop_spec self fuel w rows t0 enough).
  eexists. split; [reflexivity|]. cbn [events].
  rewrite (run_first_attempts self fuel enough).
  assert (L : length rows = length (filter (valid_date py) reader)).
  { symmetry. apply (Forall2_length F). }
  split.
  - rewrite <- (map_map snd title), enumerate_snd.
    clear E L. induction F as [|r row kept new' Hc F IH]; [reflexivity|].
    cbn [map]. f_equal; [|exact IH].
    apply (convert_text_columns py r row Hc).
  - rewrite enumerate_fst, L. reflexivity.
Qed.

(** * The further properties on concrete inputs *)

Lemma X3_attempts_of_a_run_bounded_witness :
  good_fuel default_policy 22 /\
  exists (st : LoopState) (made : nat -> Row -> nat),
    insert_loop 22 profile (world always_write_timeout None) (movies 2) 0
    = Some st /\
    attempt_keys (events st) =
      flat_map (fun ir => map (fun r => (fst ir, snd ir, r))
                              (seq 0 (made (fst ir) (snd ir))))
               (combine (seq 1 2) (movies 2)) /\
    (forall i row, made i row <= 20 + 2) /\
    length (attempt_keys (events st)) <= 2 * (20 + 2).
Proof.
  split; [exact default_fuel|].
  exact (X3_attempts_of_a_run_bounded default_policy 22
           (world always_write_timeout None) (movies 2) 0%Q default_fuel).
Defined.

Lemma X4_one_error_line_per_failed_record_witness :
  good_fuel default_policy 22 /\
  exists st,
    insert_loop 22 profile (world (invalid_at 2) None) (movies 3) 0
    = Some st /\
    error_lines (events st) =
      flat_map (fun ir =>
                  if raised (result_of default_policy 22
                               (world (invalid_at 2) None) (fst ir) (snd ir))
                  then [(fst ir, title (snd ir))] else [])
               (enumerate (movies 3) 1) /\
    failed st = length (error_lines (events st)).
Proof.
  split; [exact default_fuel|].
  exact (X4_one_error_line_per_failed_record default_policy 22
           (world (invalid_at 2) None) (movies 3) 0%Q default_fuel).
Defined.

Lemma X5_run_duration_and_summary_witness :
  good_fuel default_policy 22 /\
  nonnegative_latency (world all_applied None) /\
  exists st,
    insert_loop 22 profile (world all_applied None) (movies 3) 0 = Some st /\
    (of_nat (3 - 1) <= time_time 0 st - 0)%Q /\
    (forall now,
        (now - 0 == 0)%Q ->
        insert_summary st 0 now =
        ([InsertCompleted (now - 0); SuccessfulCount (successful st);
          FailedCount (failed st)], Some ZeroDivisionError)) /\
    (2 <= 3 ->
     insert_summary st 0 (time_time 0 st) =
     ([InsertCompleted (time_time 0 st - 0);
       SuccessfulCount (successful st);
       FailedCount (failed st);
       AverageRate (of_nat (successful st) / (time_time 0 st - 0))],
      None)).
Proof.
  assert (H : nonnegative_latency (world all_applied None)).
  { intros i r. cbn. discriminate. }
  split; [exact default_fuel|]. split; [exact H|].
  exact (X5_run_duration_and_summary default_policy 22
           (world all_applied None) (movies 3) 0%Q default_fuel H).
Defined.

Lemma X6_progress_values_in_range_witness :
  1 <= 10 <= 20 /\
  exists percent rate eta_minutes,
    progress_report 10 20 (19 # 2) 0 =
    Some (EvProgress 10 20 percent rate eta_minutes) /\
    (0 < percent)%Q /\ (percent <= 100)%Q /\
    (0 <= rate)%Q /\ (0 <= eta_minutes)%Q /\
    (10 = 20 -> (eta_minutes == 0)%Q).
Proof.
  split; [lia|].
  exact (X6_progress_values_in_range 10 20 (19 # 2)%Q 0%Q ltac:(lia)).
Defined.

Lemma X7_wait_ends_at_first_active_status_witness :
  3 < max_wait_time /\
  is_active (active_at_three 3) = true /\
  (forall j, j < 3 -> is_active (active_at_three j) = false) /\
  exists evs,
    wait_for_table active_at_three = Some evs /\
    evs = flat_map (fun j => [WQuery; waiting_line (active_at_three j) j;
                              WSleep 1])
                   (seq 0 3) ++ [WQuery; WActive; WReady] /\
    wait_queries evs = 3 + 1 /\ wait_slept evs = 3.
Proof.
  assert (H : forall j, j < 3 -> is_active (active_at_three j) = false).
  { intros j Hj. destruct j as [|[|[|j]]]; try reflexivity. lia. }
  assert (L : 3 < max_wait_time) by (unfold max_wait_time; lia).
  split; [exact L|]. split; [reflexivity|]. split; [exact H|].
  exact (X7_wait_ends_at_first_active_status active_at_three 3 L eq_refl H).
Defined.

Lemma X8_wait_gives_up_after_max_wait_time_witness :
  (forall j, j < max_wait_time -> is_active (never_found j) = false) /\
  exists evs,
    wait_for_table never_found = Some evs /\
    evs = flat_map (fun j => [WQuery; waiting_line (never_found j) j;
                              WSleep 1])
                   (seq 0 max_wait_time) ++ [WWarning max_wait_time] /\
    wait_queries evs = max_wait_time /\ wait_slept evs = max_wait_time.
Proof.
  assert (H : forall j, j < max_wait_time ->
                        is_active (never_found j) = false).
  { intros j _. reflexivity. }
  split; [exact H|].
  exact (X8_wait_gives_up_after_max_wait_time never_found H).
Defined.

Lemma sample_file_converts :
  forall r,
    In r [csv_row "Heat" "2020-01-15" "3.5";
          csv_row "Ronin" "NaN" "n/a";
          csv_row "Alien" "  " "3.5"] ->
    invalid_date sample_builtins r = false ->
    exists row, convert sample_builtins r = inr row.
Proof.
  intros r [<- | [<- | [<- | []]]] H; cbn in H; try discriminate H.
  eexists. reflexivity.
Defined.

Lemma X10_load_keeps_rows_with_a_date_witness :
  exists rows skipped,
    load_rows sample_builtins
      [csv_row "Heat" "2020-01-15" "3.5";
       csv_row "Ronin" "NaN" "n/a";
       csv_row "Alien" "  " "3.5"] = inr (rows, skipped) /\
    Forall2 (fun r row => convert sample_builtins r = inr row)
            (filter (valid_date sample_builtins)
               [csv_row "Heat" "2020-01-15" "3.5";
                csv_row "Ronin" "NaN" "n/a";
                csv_row "Alien" "  " "3.5"]) rows /\
    map title rows = ["Heat"%string] /\
    skipped = ["Ronin"%string; "Alien"%string] /\
    length rows + length skipped = 3.
Proof.
  exact (X10_load_keeps_rows_with_a_date sample_builtins _
           sample_file_converts).
Defined.

Lemma X11_first_bad_row_ends_the_load_witness :
  invalid_date sample_builtins (csv_row "Ronin" "2020-01-15" "n/a") = false /\
  convert sample_builtins (csv_row "Ronin" "2020-01-15" "n/a")
  = inl FPopularity /\
  load_rows sample_builtins
    ([csv_row "Heat" "2020-01-15" "3.5"] ++
     csv_row "Ronin" "2020-01-15" "n/a" ::
     [csv_row "Alien" "2020-01-15" "3.5"])
  = inl (FPopularity, csv_row "Ronin" "2020-01-15" "n/a").
Proof.
  split; [reflexivity|]. split; [reflexivity|].
  apply (X11_first_bad_row_ends_the_load sample_builtins
           [csv_row "Heat" "2020-01-15" "3.5"]
           [csv_row "Alien" "2020-01-15" "3.5"]
           (csv_row "Ronin" "2020-01-15" "n/a") FPopularity).
  - intros r' [<- | []] _. eexists. reflexivity.
  - reflexivity.
  - reflexivity.
Defined.

Lemma X14_rows_with_a_date_are_the_records_sent_witness :
  good_fuel default_policy 22 /\
  exists st,
    load_and_insert sample_builtins 22 profile (world all_applied None)
      [csv_row "Heat" "2020-01-15" "3.5";
       csv_row "Ronin" "NaN" "n/a";
       csv_row "Alien" "  " "3.5"] 0
    = inr (Some st) /\
    map (fun ir => title (snd ir)) (first_attempts (events st)) =
    ["Heat"%string] /\
    map fst (first_attempts (events st)) = [1].
Proof.
  split; [exact default_fuel|].
  exact (X14_rows_with_a_date_are_the_records_sent sample_builtins
           default_policy 22 (world all_applied None) _ 0%Q
           default_fuel sample_file_converts).
Defined.
